(** * The survey feedback server (server.js): submission, persistence, CSV
      projection and statistics, as a shallow embedding.

    The handlers of server.js are translated to functions over an explicit
    file-system state.  The JavaScript runtime pieces they call (property
    lookup, truthiness, [String], [JSON.stringify], [JSON.parse],
    [Date.prototype.toISOString], [Array.prototype.sort]) are modelled
    after ECMA-262, for the fragment of values described below. *)

From Stdlib Require Import String Ascii List ZArith Lia Bool Sorted Arith Permutation.
From Stdlib Require Import Decimal.
From Stdlib Require DecimalFacts DecimalPos DecimalZ OrderedTypeEx.
Import ListNotations.

Local Open Scope list_scope.
Local Open Scope string_scope.

(** ** Characters used by the printers *)

Definition dquote : ascii := "034"%char.
Definition backslash : ascii := "092"%char.
Definition newline : ascii := "010"%char.
Definition comma : ascii := ","%char.

(** A one-character string holding a double quote. *)
Definition q : string := String dquote EmptyString.

(** ** Exceptions and partial results

    A computation of the handlers returns a value, throws, or leaves the
    fragment of JavaScript that is modelled here ([Unmodelled]: nothing is
    said about what the server does then). *)

Inductive error : Type :=
| ENOENT        (* fs.readFile / fs.access / fs.writeFile: no such file or directory *)
| EACCES        (* fs.writeFile / fs.mkdir: the write cannot complete *)
| SyntaxError   (* JSON.parse *)
| TypeError.    (* a call or property read on the wrong kind of value *)

Inductive result (A : Type) : Type :=
| Ok (a : A)
| Throw (e : error)
| Unmodelled.

Arguments Ok {A} a.
Arguments Throw {A} e.
Arguments Unmodelled {A}.

Definition andThen {A B : Type} (x : result A) (f : A -> result B) : result B :=
  match x with
  | Ok a => f a
  | Throw e => Throw e
  | Unmodelled => Unmodelled
  end.

Notation "'try!' x <- c1 ; c2" := (andThen c1 (fun x => c2))
  (at level 61, x name, c1 at next level, right associativity).

Fixpoint mapM {A B : Type} (f : A -> result B) (l : list A) : result (list B) :=
  match l with
  | [] => Ok []
  | x :: rest => try! y <- f x; try! ys <- mapM f rest; Ok (y :: ys)
  end.

(** ** JavaScript values

    What [express.json] hands to the handlers, and what [JSON.parse] reads
    back from the store, is JSON data.  The numbers of the model are the
    integers that a JavaScript number holds exactly (at most 2^53 in
    magnitude); a string is a sequence of code units below 256, each an
    [ascii].  An object is the list of its own properties in the order in
    which JavaScript enumerates them. *)

#[local] Unset Elimination Schemes.

Inductive value : Type :=
| JNull
| JBool (b : bool)
| JNum (n : Z)
| JStr (s : string)
| JArr (items : list value)
| JObj (fields : list (string * value)).

#[local] Set Elimination Schemes.

(** A survey response: a plain object. *)
Definition record := list (string * value).

(** The result of reading a property of a plain object: [undefined], one of
    its own (JSON) values, or something inherited from [Object.prototype]
    (a built-in function, or the prototype object itself behind the
    [__proto__] accessor). *)
Inductive jsval : Type :=
| Undefined
| Data (v : value)
| NativeFunction (name : string)
| ObjectPrototype.

Module Js.

(** Own property lookup. *)
Fixpoint own_get (r : record) (k : string) : option value :=
  match r with
  | [] => None
  | (k', v) :: rest => if String.eqb k' k then Some v else own_get rest k
  end.

(** The properties every plain object inherits from [Object.prototype]. *)
Definition Object_prototype (k : string) : option jsval :=
  if String.eqb k "constructor" then Some (NativeFunction "Object")
  else if String.eqb k "__proto__" then Some ObjectPrototype
  else if existsb (String.eqb k)
            ["toString"; "toLocaleString"; "valueOf"; "hasOwnProperty";
             "isPrototypeOf"; "propertyIsEnumerable"; "__defineGetter__";
             "__defineSetter__"; "__lookupGetter__"; "__lookupSetter__"]
       then Some (NativeFunction k)
  else None.

(** [obj[k]] and [obj.k]: own properties first, then the prototype. *)
Definition get (r : record) (k : string) : jsval :=
  match own_get r k with
  | Some v => Data v
  | None =>
      match Object_prototype k with
      | Some x => x
      | None => Undefined
      end
  end.

(** [obj.k = v]: an existing own property keeps its place, a new one goes
    last. *)
Fixpoint set (r : record) (k : string) (v : value) : record :=
  match r with
  | [] => [(k, v)]
  | (k', v') :: rest =>
      if String.eqb k' k then (k', v) :: rest else (k', v') :: set rest k v
  end.

(** [Object.keys(obj)]. *)
Definition keys (r : record) : list string := map fst r.

(** ToBoolean. *)
Definition truthy_value (v : value) : bool :=
  match v with
  | JNull => false
  | JBool b => b
  | JNum n => negb (n =? 0)%Z
  | JStr s => negb (String.eqb s "")
  | JArr _ => true
  | JObj _ => true
  end.

Definition truthy (x : jsval) : bool :=
  match x with
  | Undefined => false
  | Data v => truthy_value v
  | NativeFunction _ => true
  | ObjectPrototype => true
  end.

(** Decimal digits of an unsigned decimal number, most significant first. *)
Fixpoint digits (u : uint) : list ascii :=
  match u with
  | Nil => []
  | D0 u => "0"%char :: digits u
  | D1 u => "1"%char :: digits u
  | D2 u => "2"%char :: digits u
  | D3 u => "3"%char :: digits u
  | D4 u => "4"%char :: digits u
  | D5 u => "5"%char :: digits u
  | D6 u => "6"%char :: digits u
  | D7 u => "7"%char :: digits u
  | D8 u => "8"%char :: digits u
  | D9 u => "9"%char :: digits u
  end.

(** Number::toString for an integer (radix 10). *)
Definition number_chars (n : Z) : list ascii :=
  match Z.to_int n with
  | Pos u => digits u
  | Neg u => "-"%char :: digits u
  end.

Definition number_to_string (n : Z) : string :=
  string_of_list_ascii (number_chars n).

(** [Array.prototype.join] on strings. *)
Definition join (sep : string) (parts : list string) : string :=
  String.concat sep parts.

(** [String(v)] for JSON data.  An array joins its elements with commas,
    [null] elements giving the empty string.  A plain object gives
    ["[object Object]"] through the inherited [toString]; when it has an own
    (hence not callable) [toString] property, the conversion falls back to
    [valueOf], which returns the object, and throws a TypeError. *)
Fixpoint to_string (v : value) : result string :=
  match v with
  | JNull => Ok "null"
  | JBool true => Ok "true"
  | JBool false => Ok "false"
  | JNum n => Ok (number_to_string n)
  | JStr s => Ok s
  | JArr items =>
      let fix elements (l : list value) : result (list string) :=
        match l with
        | [] => Ok []
        | x :: rest =>
            try! s <- match x with JNull => Ok "" | _ => to_string x end;
            try! ss <- elements rest;
            Ok (s :: ss)
        end in
      try! ss <- elements items;
      Ok (join "," ss)
  | JObj fields =>
      match own_get fields "toString" with
      | Some _ => Throw TypeError
      | None => Ok "[object Object]"
      end
  end.

(** [String(x)] for whatever a property read returns. *)
Definition String_ (x : jsval) : result string :=
  match x with
  | Undefined => Ok "undefined"
  | Data v => to_string v
  | NativeFunction name => Ok ("function " ++ name ++ "() { [native code] }")
  | ObjectPrototype => Ok "[object Object]"
  end.

(** Whether converting [x] to a primitive throws, as [new Date(x)] does
    first.  Whatever the order, ToPrimitive tries [toString] and [valueOf];
    the inherited [valueOf] of an object or array returns the object itself,
    so that [toString] decides: the conversion throws exactly where
    [String(x)] throws. *)
Definition to_primitive (x : jsval) : result unit :=
  try! _ <- String_ x; Ok tt.

End Js.

(** ** JSON text

    [JSON.stringify(v, null, 2)] and [JSON.parse] on the values above.  The
    parser follows the JSON grammar (ECMA-404).  Where the grammar is
    violated it reports [Malformed], the SyntaxError of [JSON.parse]; where
    the text leaves the values of the model (a number with a fraction or an
    exponent or beyond 2^53, an escape for a code unit above 255) it
    reports [Unsupported].  The properties of an object are kept in the
    order of the text; JavaScript lists the keys that are array indices
    first, as a text written by [JSON.stringify] has them already. *)

Module Json.

Local Open Scope list_scope.

Definition chars (s : string) : list ascii := list_ascii_of_string s.

(** *** Printing *)

Definition hex_digit (n : N) : ascii :=
  if (n <? 10)%N then ascii_of_N (48 + n) else ascii_of_N (87 + n).

(** QuoteJSONString, one code unit. *)
Definition escape (c : ascii) : list ascii :=
  if Ascii.eqb c dquote then [backslash; dquote]
  else if Ascii.eqb c backslash then [backslash; backslash]
  else if Ascii.eqb c "008"%char then [backslash; "b"%char]
  else if Ascii.eqb c "009"%char then [backslash; "t"%char]
  else if Ascii.eqb c "010"%char then [backslash; "n"%char]
  else if Ascii.eqb c "012"%char then [backslash; "f"%char]
  else if Ascii.eqb c "013"%char then [backslash; "r"%char]
  else if (N_of_ascii c <? 32)%N then
    [backslash; "u"%char; "0"%char; "0"%char;
     hex_digit (N_of_ascii c / 16); hex_digit (N_of_ascii c mod 16)]
  else [c].

Fixpoint escape_all (s : string) : list ascii :=
  match s with
  | EmptyString => []
  | String c rest => escape c ++ escape_all rest
  end.

Definition print_string (s : string) : list ascii :=
  dquote :: escape_all s ++ [dquote].

(** A line break followed by the current indentation. *)
Definition nl (ind : nat) : list ascii := newline :: repeat " "%char ind.

Fixpoint join_chars (sep : list ascii) (parts : list (list ascii)) : list ascii :=
  match parts with
  | [] => []
  | [p] => p
  | p :: rest => p ++ sep ++ join_chars sep rest
  end.

(** SerializeJSONProperty with a gap of two spaces; [ind] is the current
    indentation. *)
Fixpoint print (ind : nat) (v : value) : list ascii :=
  match v with
  | JNull => chars "null"
  | JBool true => chars "true"
  | JBool false => chars "false"
  | JNum n => Js.number_chars n
  | JStr s => print_string s
  | JArr [] => chars "[]"
  | JArr items =>
      "["%char :: nl (2 + ind)
        ++ join_chars (comma :: nl (2 + ind)) (map (print (2 + ind)) items)
        ++ nl ind ++ ["]"%char]
  | JObj [] => chars "{}"
  | JObj fields =>
      "{"%char :: nl (2 + ind)
        ++ join_chars (comma :: nl (2 + ind))
             (map (fun kv => print_string (fst kv) ++ chars ": "
                               ++ print (2 + ind) (snd kv)) fields)
        ++ nl ind ++ ["}"%char]
  end.

(** The text of one property of an object. *)
Definition member_text (ind : nat) (kv : string * value) : list ascii :=
  print_string (fst kv) ++ chars ": " ++ print ind (snd kv).

Definition stringify (v : value) : string := string_of_list_ascii (print 0 v).

(** *** Parsing *)

Definition is_ws (c : ascii) : bool :=
  Ascii.eqb c " "%char || Ascii.eqb c "009"%char
  || Ascii.eqb c "010"%char || Ascii.eqb c "013"%char.

Fixpoint skip_ws (s : list ascii) : list ascii :=
  match s with
  | c :: rest => if is_ws c then skip_ws rest else s
  | [] => []
  end.

(** [strip p s]: what follows the prefix [p] of [s]. *)
Fixpoint strip (p s : list ascii) : option (list ascii) :=
  match p, s with
  | [], _ => Some s
  | a :: p', b :: s' => if Ascii.eqb a b then strip p' s' else None
  | _ :: _, [] => None
  end.

Definition digit (c : ascii) : option (uint -> uint) :=
  if Ascii.eqb c "0"%char then Some D0
  else if Ascii.eqb c "1"%char then Some D1
  else if Ascii.eqb c "2"%char then Some D2
  else if Ascii.eqb c "3"%char then Some D3
  else if Ascii.eqb c "4"%char then Some D4
  else if Ascii.eqb c "5"%char then Some D5
  else if Ascii.eqb c "6"%char then Some D6
  else if Ascii.eqb c "7"%char then Some D7
  else if Ascii.eqb c "8"%char then Some D8
  else if Ascii.eqb c "9"%char then Some D9
  else None.

Fixpoint read_uint (s : list ascii) : uint * list ascii :=
  match s with
  | [] => (Nil, [])
  | c :: rest =>
      match digit c with
      | Some d => let (u, r) := read_uint rest in (d u, r)
      | None => (Nil, s)
      end
  end.

Inductive parsed (A : Type) : Type :=
| Parsed (a : A) (rest : list ascii)
| Malformed
| Unsupported.

Arguments Parsed {A} a rest.
Arguments Malformed {A}.
Arguments Unsupported {A}.

(** The largest magnitude up to which every integer is a JavaScript
    number: 2^53. *)
Definition max_safe : Z := 9007199254740992.

Definition safe_integer (n : Z) : bool := (Z.abs n <=? max_safe)%Z.

(** Whether a fraction or an exponent follows. *)
Definition continues_number (rest : list ascii) : bool :=
  match rest with
  | [] => false
  | c :: _ =>
      Ascii.eqb c "."%char || Ascii.eqb c "e"%char || Ascii.eqb c "E"%char
  end.

(** A number literal, after its sign: at least one digit, no superfluous
    leading zero. *)
Definition parse_number (neg : bool) (s : list ascii) : parsed value :=
  let (u, rest) := read_uint s in
  if uint_beq (unorm u) u then
    let n := Z.of_int (if neg then Neg u else Pos u) in
    if continues_number rest then Unsupported
    else if safe_integer n then Parsed (JNum n) rest
    else Unsupported
  else Malformed.

Definition hex_value (c : ascii) : option N :=
  let n := N_of_ascii c in
  if (48 <=? n)%N && (n <=? 57)%N then Some (n - 48)%N
  else if (97 <=? n)%N && (n <=? 102)%N then Some (n - 87)%N
  else if (65 <=? n)%N && (n <=? 70)%N then Some (n - 55)%N
  else None.

Definition hex4 (a b c d : ascii) : option N :=
  match hex_value a, hex_value b, hex_value c, hex_value d with
  | Some x, Some y, Some z, Some w => Some (((x * 16 + y) * 16 + z) * 16 + w)%N
  | _, _, _, _ => None
  end.

Definition unescape (e : ascii) : option ascii :=
  if Ascii.eqb e dquote then Some dquote
  else if Ascii.eqb e backslash then Some backslash
  else if Ascii.eqb e "/"%char then Some "/"%char
  else if Ascii.eqb e "b"%char then Some "008"%char
  else if Ascii.eqb e "t"%char then Some "009"%char
  else if Ascii.eqb e "n"%char then Some "010"%char
  else if Ascii.eqb e "f"%char then Some "012"%char
  else if Ascii.eqb e "r"%char then Some "013"%char
  else None.

Definition cons_char (c : ascii) (x : parsed string) : parsed string :=
  match x with
  | Parsed s rest => Parsed (String c s) rest
  | Malformed => Malformed
  | Unsupported => Unsupported
  end.

(** The characters of a string literal after its opening quote, up to and
    including the closing quote. *)
Fixpoint parse_chars (s : list ascii) : parsed string :=
  match s with
  | [] => Malformed
  | c :: rest =>
      if Ascii.eqb c dquote then Parsed EmptyString rest
      else if Ascii.eqb c backslash then
        match rest with
        | [] => Malformed
        | e :: rest1 =>
            if Ascii.eqb e "u"%char then
              match rest1 with
              | a :: b :: c' :: d :: rest2 =>
                  match hex4 a b c' d with
                  | Some n =>
                      if (n <? 256)%N
                      then cons_char (ascii_of_N n) (parse_chars rest2)
                      else Unsupported
                  | None => Malformed
                  end
              | _ => Malformed
              end
            else
              match unescape e with
              | Some c' => cons_char c' (parse_chars rest1)
              | None => Malformed
              end
        end
      else if (N_of_ascii c <? 32)%N then Malformed
      else cons_char c (parse_chars rest)
  end.

(** One value, after optional white space.  The recursion is on [fuel],
    one unit per nested value; the model says nothing when it runs out. *)
Fixpoint parse_value (fuel : nat) (s : list ascii) {struct fuel}
  : parsed value :=
  match fuel with
  | O => Unsupported
  | S fuel =>
      match skip_ws s with
      | [] => Malformed
      | c :: rest =>
          if Ascii.eqb c dquote then
            match parse_chars rest with
            | Parsed str rest' => Parsed (JStr str) rest'
            | Malformed => Malformed
            | Unsupported => Unsupported
            end
          else if Ascii.eqb c "["%char then
            match skip_ws rest with
            | [] => Malformed
            | c' :: rest' =>
                if Ascii.eqb c' "]"%char then Parsed (JArr []) rest'
                else parse_items fuel [] (c' :: rest')
            end
          else if Ascii.eqb c "{"%char then
            match skip_ws rest with
            | [] => Malformed
            | c' :: rest' =>
                if Ascii.eqb c' "}"%char then Parsed (JObj []) rest'
                else parse_members fuel [] (c' :: rest')
            end
          else if Ascii.eqb c "-"%char then parse_number true rest
          else
            match digit c with
            | Some _ => parse_number false (c :: rest)
            | None =>
                match strip (chars "null") (c :: rest) with
                | Some rest' => Parsed JNull rest'
                | None =>
                    match strip (chars "true") (c :: rest) with
                    | Some rest' => Parsed (JBool true) rest'
                    | None =>
                        match strip (chars "false") (c :: rest) with
                        | Some rest' => Parsed (JBool false) rest'
                        | None => Malformed
                        end
                    end
                end
            end
      end
  end

(** The elements of an array after the first bracket, [acc] being those
    read so far. *)
with parse_items (fuel : nat) (acc : list value) (s : list ascii) {struct fuel}
  : parsed value :=
  match fuel with
  | O => Unsupported
  | S fuel =>
      match parse_value fuel s with
      | Malformed => Malformed
      | Unsupported => Unsupported
      | Parsed v rest =>
          match skip_ws rest with
          | [] => Malformed
          | c :: rest' =>
              if Ascii.eqb c comma then parse_items fuel (acc ++ [v]) rest'
              else if Ascii.eqb c "]"%char then Parsed (JArr (acc ++ [v])) rest'
              else Malformed
          end
      end
  end

(** The properties of an object after the brace.  A name that occurs again
    replaces the value and keeps the place of its first occurrence. *)
with parse_members (fuel : nat) (acc : record) (s : list ascii) {struct fuel}
  : parsed value :=
  match fuel with
  | O => Unsupported
  | S fuel =>
      match skip_ws s with
      | [] => Malformed
      | c :: rest =>
          if Ascii.eqb c dquote then
            match parse_chars rest with
            | Malformed => Malformed
            | Unsupported => Unsupported
            | Parsed k rest1 =>
                match skip_ws rest1 with
                | [] => Malformed
                | c1 :: rest2 =>
                    if Ascii.eqb c1 ":"%char then
                      match parse_value fuel rest2 with
                      | Malformed => Malformed
                      | Unsupported => Unsupported
                      | Parsed v rest3 =>
                          match skip_ws rest3 with
                          | [] => Malformed
                          | c3 :: rest4 =>
                              if Ascii.eqb c3 comma
                              then parse_members fuel (Js.set acc k v) rest4
                              else if Ascii.eqb c3 "}"%char
                              then Parsed (JObj (Js.set acc k v)) rest4
                              else Malformed
                          end
                      end
                    else Malformed
                end
            end
          else Malformed
      end
  end.

(** *** Values that are JavaScript values

    An object has each property name once, and a number is an integer up to
    2^53: a [value] stands for a JavaScript value when, at every depth, the
    keys of its objects are distinct and its numbers are in that range. *)

Fixpoint distinct (l : list string) : bool :=
  match l with
  | [] => true
  | k :: rest => negb (existsb (String.eqb k) rest) && distinct rest
  end.

Fixpoint wf (v : value) : bool :=
  match v with
  | JNum n => safe_integer n
  | JArr items => forallb wf items
  | JObj fields =>
      distinct (map fst fields) && forallb (fun kv => wf (snd kv)) fields
  | _ => true
  end.

Definition wf_record (r : record) : bool := wf (JObj r).

(** The number of values in a value: the fuel its text needs. *)
Fixpoint size (v : value) : nat :=
  match v with
  | JArr items => S (list_sum (map (fun x => S (size x)) items))
  | JObj fields => S (list_sum (map (fun kv => S (size (snd kv))) fields))
  | _ => 1
  end.

(** What may follow the text of a value: anything that would not extend a
    number. *)
Definition number_ends (rest : list ascii) : Prop :=
  match rest with
  | [] => True
  | c :: _ => digit c = None /\ continues_number rest = false
  end.

(** The parser reads the text of [v] back as [v], at any indentation and
    before any such rest. *)
Definition roundtrips (v : value) : Prop :=
  forall ind rest fuel,
    size v <= fuel -> wf v = true -> number_ends rest ->
    parse_value fuel (print ind v ++ rest) = Parsed v rest.

(** [JSON.parse(text)]: one value, then only white space. *)
Definition parse (text : string) : result value :=
  let s := chars text in
  match parse_value (S (length s)) s with
  | Parsed v rest =>
      match skip_ws rest with
      | [] => Ok v
      | _ :: _ => Throw SyntaxError
      end
  | Malformed => Throw SyntaxError
  | Unsupported => Unmodelled
  end.

End Json.

(** ** Values in memory

    A value in memory can hold a number that JSON text cannot express: an
    infinity, which [JSON.parse] builds from a literal beyond the range of
    a double ([1e400]).  [JSON.stringify] writes it as [null]. *)

#[local] Unset Elimination Schemes.

Inductive memory : Type :=
| MNull
| MBool (b : bool)
| MNum (n : Z)
| MInfinity (negative : bool)
| MStr (s : string)
| MArr (items : list memory)
| MObj (fields : list (string * memory)).

#[local] Set Elimination Schemes.

Module Memory.

(** What [JSON.parse] builds from a JSON value. *)
Fixpoint of_json (v : value) : memory :=
  match v with
  | JNull => MNull
  | JBool b => MBool b
  | JNum n => MNum n
  | JStr s => MStr s
  | JArr items => MArr (map of_json items)
  | JObj fields => MObj (map (fun kv => (fst kv, of_json (snd kv))) fields)
  end.

(** What SerializeJSONProperty writes: a number that is not finite becomes
    [null], at any depth. *)
Fixpoint to_json (m : memory) : value :=
  match m with
  | MNull => JNull
  | MBool b => JBool b
  | MNum n => JNum n
  | MInfinity _ => JNull
  | MStr s => JStr s
  | MArr items => JArr (map to_json items)
  | MObj fields => JObj (map (fun kv => (fst kv, to_json (snd kv))) fields)
  end.


End Memory.

(** ** Dates

    [new Date(t).toISOString()] for a time value [t] in milliseconds since
    the epoch: the proleptic Gregorian calendar in UTC. *)

Module Dates.

Local Open Scope Z_scope.

Definition msPerDay : Z := 86400000.

(** Year, month and day of the month of a day number (days since
    1970-01-01). *)
Definition civil_from_days (days : Z) : Z * Z * Z :=
  let z := days + 719468 in
  let era := z / 146097 in
  let doe := z - era * 146097 in
  let yoe := (doe - doe / 1460 + doe / 36524 - doe / 146096) / 365 in
  let y := yoe + era * 400 in
  let doy := doe - (365 * yoe + yoe / 4 - yoe / 100) in
  let mp := (5 * doy + 2) / 153 in
  let d := doy - (153 * mp + 2) / 5 + 1 in
  let m := if mp <? 10 then mp + 3 else mp - 9 in
  (if m <=? 2 then y + 1 else y, m, d).

Definition digit_char (d : Z) : ascii := ascii_of_N (48 + Z.to_N d).

(** The last [width] decimal digits of a non-negative number: the number
    left-padded with zeros when it has no more than [width] digits. *)
Fixpoint pad (width : nat) (n : Z) : string :=
  match width with
  | O => EmptyString
  | S w => pad w (n / 10) ++ String (digit_char (n mod 10)) EmptyString
  end.

(** Four digits for the years 0 to 9999, a sign and six digits otherwise. *)
Definition year_string (y : Z) : string :=
  if (0 <=? y) && (y <=? 9999) then pad 4 y
  else if y <? 0 then "-" ++ pad 6 (- y)
  else "+" ++ pad 6 y.

Definition toISOString (t : Z) : string :=
  let day := t / msPerDay in
  let ms := t mod msPerDay in
  let '(y, m, d) := civil_from_days day in
  year_string y ++ "-" ++ pad 2 m ++ "-" ++ pad 2 d
    ++ "T" ++ pad 2 (ms / 3600000)
    ++ ":" ++ pad 2 ((ms / 60000) mod 60)
    ++ ":" ++ pad 2 ((ms / 1000) mod 60)
    ++ "." ++ pad 3 (ms mod 1000) ++ "Z".

(** *** Reading a timestamp

    The instant that a text of the form YYYY-MM-DDTHH:mm:ss.sssZ denotes
    (the date-time format of ISO 8601 that ECMA-262 uses, where a year
    outside 0 to 9999 is written with a sign and six digits), in
    milliseconds since the epoch.  The theorems use it to say what the text
    written by [toISOString] stands for. *)

(** The day number of a date of the proleptic Gregorian calendar. *)
Definition days_from_civil (y m d : Z) : Z :=
  let y := if m <=? 2 then y - 1 else y in
  let era := y / 400 in
  let yoe := y - era * 400 in
  let mp := if 2 <? m then m - 3 else m + 9 in
  let doy := (153 * mp + 2) / 5 + d - 1 in
  let doe := yoe * 365 + yoe / 4 - yoe / 100 + doy in
  era * 146097 + doe - 719468.

Definition digit_value (c : ascii) : option Z :=
  let n := Z.of_N (N_of_ascii c) - 48 in
  if (0 <=? n) && (n <=? 9) then Some n else None.

(** [width] decimal digits at the head of a text. *)
Fixpoint read_number (width : nat) (acc : Z) (s : string) : option (Z * string) :=
  match width with
  | O => Some (acc, s)
  | S w =>
      match s with
      | String c rest =>
          match digit_value c with
          | Some k => read_number w (10 * acc + k) rest
          | None => None
          end
      | EmptyString => None
      end
  end.

(** A number of [width] digits that is at most [bound], then the character
    [c]. *)
Definition read_field (width : nat) (low bound : Z) (c : ascii) (s : string)
  : option (Z * string) :=
  match read_number width 0 s with
  | Some (n, String c' rest) =>
      if Ascii.eqb c c' && (low <=? n) && (n <=? bound) then Some (n, rest)
      else None
  | _ => None
  end.

(** The year: four digits, or a sign and six digits. *)
Definition read_year (s : string) : option (Z * string) :=
  match s with
  | String c rest =>
      if Ascii.eqb c "+" then read_field 6 0 999999 "-" rest
      else if Ascii.eqb c "-" then
        match read_field 6 0 999999 "-" rest with
        | Some (y, rest') => Some (- y, rest')
        | None => None
        end
      else read_field 4 0 9999 "-" s
  | EmptyString => None
  end.

Definition instant_of (s : string) : option Z :=
  match read_year s with
  | Some (y, s) =>
  match read_field 2 1 12 "-" s with
  | Some (m, s) =>
  match read_field 2 1 31 "T" s with
  | Some (d, s) =>
  match read_field 2 0 23 ":" s with
  | Some (hh, s) =>
  match read_field 2 0 59 ":" s with
  | Some (mm, s) =>
  match read_field 2 0 59 "." s with
  | Some (ss, s) =>
  match read_field 3 0 999 "Z" s with
  | Some (ms, EmptyString) =>
      Some (days_from_civil y m d * msPerDay
            + hh * 3600000 + mm * 60000 + ss * 1000 + ms)
  | _ => None end
  | None => None end
  | None => None end
  | None => None end
  | None => None end
  | None => None end
  | None => None end.

(** The instants of the years 0 to 9999. *)
Definition four_digit_year (t : Z) : Prop :=
  -62167219200000 <= t <= 253402300799999.

(** The time values of ECMA-262: the instants a [Date] can hold, 10^8 days
    to either side of the epoch. *)
Definition time_value (t : Z) : Prop :=
  -8640000000000000 <= t <= 8640000000000000.

End Dates.

(** ** Quoted CSV fields

    The reader of RFC 4180 for a quoted field: the text between the outer
    quotes, where two adjacent quotes stand for one and a single quote may
    not occur.  It is what a consumer of the projected file applies to each
    field; the theorems use it to say what a field denotes. *)

Module Csv.

Fixpoint unquote_body (pending : bool) (s : string) : option string :=
  match s with
  | EmptyString => if pending then Some EmptyString else None
  | String c rest =>
      if pending then
        if Ascii.eqb c dquote
        then option_map (String dquote) (unquote_body false rest)
        else None
      else if Ascii.eqb c dquote then unquote_body true rest
      else option_map (String c) (unquote_body false rest)
  end.

Definition unquote (f : string) : option string :=
  match f with
  | EmptyString => None
  | String c rest => if Ascii.eqb c dquote then unquote_body false rest else None
  end.

Definition well_formed (f : string) : bool :=
  match unquote f with
  | Some _ => true
  | None => false
  end.

Fixpoint count_quotes (s : string) : nat :=
  match s with
  | EmptyString => 0
  | String c rest =>
      (if Ascii.eqb c dquote then 1 else 0) + count_quotes rest
  end.

End Csv.

(** ** The server *)

(** The part of the disk the server touches: the [responses] directory
    and its two files.  [writable] is false when a write cannot complete
    (disk full, no permission). *)
Record disk : Type := mkDisk {
  responsesDir : bool;
  jsonFile : option string;   (* responses/survey_responses.json *)
  csvFile : option string;    (* responses/survey_responses.csv *)
  writable : bool
}.

(** What a submission reads from its surroundings: the clock behind
    [new Date()], the clock behind [Date.now()] (time values, in
    milliseconds since the epoch), and the string that
    [Math.random().toString(36).substr(2, 9)] returns. *)
Record env : Type := mkEnv {
  clock : Z;
  clock_id : Z;
  random_part : string
}.

(** A handler is a computation on the disk that returns, throws, or leaves
    the model. *)
Definition io (A : Type) : Type := disk -> disk * result A.

Definition ret {A : Type} (a : A) : io A := fun d => (d, Ok a).

Definition bind {A B : Type} (c : io A) (f : A -> io B) : io B :=
  fun d =>
    match c d with
    | (d', Ok a) => f a d'
    | (d', Throw e) => (d', Throw e)
    | (d', Unmodelled) => (d', Unmodelled)
    end.

(** [try { c } catch (error) { handler }]. *)
Definition catch {A : Type} (c : io A) (handler : error -> io A) : io A :=
  fun d =>
    match c d with
    | (d', Ok a) => (d', Ok a)
    | (d', Throw e) => handler e d'
    | (d', Unmodelled) => (d', Unmodelled)
    end.

(** A computation that does not touch the disk. *)
Definition lift {A : Type} (r : result A) : io A := fun d => (d, r).

Notation "'await' x <- c1 ; c2" := (bind c1 (fun x => c2))
  (at level 61, x name, c1 at next level, right associativity).

Inductive submit_response : Type :=
| Submitted (responseId : jsval) (totalResponses : nat)   (* 200 *)
| BadRequest (error_ : string)                             (* 400 *)
| SaveFailed (error_ : string) (details : error).          (* 500 *)

Inductive query_response (A : Type) : Type :=
| Found (body : A)                                         (* 200 *)
| NotFound (error_ : string) (details : error).            (* 404 *)

Arguments Found {A} body.
Arguments NotFound {A} error_ details.

Record all_responses : Type := mkAll {
  count : jsval;
  data : value
}.

Record stats : Type := mkStats {
  totalResponses : nat;
  stakeholderResponses : nat;
  participantResponses : nat;
  responsesByDate : list (string * Z);
  latestResponse : jsval
}.

(** What [res.download] sends: the content of the file, as an attachment
    of the given name. *)
Record download : Type := mkDownload {
  filename : string;
  content : string
}.

Module Server.

Import Js.

(** *** Files *)

(** [fs.access(responsesDir)]. *)
Definition access_dir : io unit :=
  fun d => (d, if responsesDir d then Ok tt else Throw ENOENT).

(** [fs.mkdir(responsesDir, { recursive: true })]. *)
Definition mkdir : io unit :=
  fun d =>
    if writable d
    then (mkDisk true (jsonFile d) (csvFile d) (writable d), Ok tt)
    else (d, Throw EACCES).

(** [fs.readFile(responsesFile, 'utf8')]. *)
Definition readFile : io string :=
  fun d =>
    (d, match jsonFile d with
        | Some text => Ok text
        | None => Throw ENOENT
        end).

(** [fs.writeFile(responsesFile, text)]. *)
Definition writeFile (text : string) : io unit :=
  fun d =>
    if responsesDir d
    then if writable d
         then (mkDisk (responsesDir d) (Some text) (csvFile d) (writable d), Ok tt)
         else (d, Throw EACCES)
    else (d, Throw ENOENT).

(** [fs.writeFile(csvFile, text)]. *)
Definition writeFile_csv (text : string) : io unit :=
  fun d =>
    if responsesDir d
    then if writable d
         then (mkDisk (responsesDir d) (jsonFile d) (Some text) (writable d), Ok tt)
         else (d, Throw EACCES)
    else (d, Throw ENOENT).

Definition JSON_parse (text : string) : result value := Json.parse text.

Definition JSON_stringify (v : value) : string := Json.stringify v.

(** *** saveAsCSV *)

(** The elements of the array as plain objects.  What [Object.keys] and a
    property read do on an element of another kind is not modelled. *)
Fixpoint records_of (items : list value) : result (list record) :=
  match items with
  | [] => Ok []
  | JObj r :: rest => try! rs <- records_of rest; Ok (r :: rs)
  | _ :: _ => Unmodelled
  end.

(** [allKeys.add(key)]: a Set keeps the first insertion. *)
Definition add_key (allKeys : list string) (key : string) : list string :=
  if existsb (String.eqb key) allKeys then allKeys else allKeys ++ [key]%list.

(** Lines 167-170. *)
Definition all_keys (responses : list record) : list string :=
  fold_left (fun allKeys response => fold_left add_key (keys response) allKeys)
    responses [].

(** [Array.prototype.sort()] without a comparator, on distinct strings:
    ascending code-unit order. *)
Fixpoint insert (x : string) (l : list string) : list string :=
  match l with
  | [] => [x]
  | y :: rest => if String.leb x y then x :: l else y :: insert x rest
  end.

Definition sort (l : list string) : list string := fold_right insert [] l.

(** The order of the sort. *)
Definition key_le (a b : string) : Prop := String.leb a b = true.
Definition key_lt (a b : string) : Prop := String.ltb a b = true.

(** The global [replace] of line 179: every double quote is doubled. *)
Fixpoint double_quotes (s : string) : string :=
  match s with
  | EmptyString => EmptyString
  | String c rest =>
      if Ascii.eqb c dquote
      then String dquote (String dquote (double_quotes rest))
      else String c (double_quotes rest)
  end.

(** Line 172. *)
Definition headers_of (responses : list record) : list string :=
  sort (all_keys responses).

(** Line 173. *)
Definition header_field (header : string) : string := q ++ header ++ q.

Definition csvHeader (headers : list string) : string :=
  join "," (map header_field headers).

(** Lines 177-179: [response[header]], or the empty string when that is
    falsy, stringified, escaped and quoted. *)
Definition field (response : record) (header : string) : result string :=
  let value :=
    if truthy (get response header) then get response header
    else Data (JStr "") in
  try! s <- String_ value;
  Ok (q ++ double_quotes s ++ q).

(** Lines 175-181. *)
Definition csvRow (headers : list string) (response : record) : result string :=
  try! fields <- mapM (field response) headers;
  Ok (join "," fields).

(** Line 183. *)
Definition csvContent (responses : list record) : result string :=
  let headers := headers_of responses in
  try! csvRows <- mapM (csvRow headers) responses;
  Ok (join (String newline EmptyString) (csvHeader headers :: csvRows)).

Definition saveAsCSV (responses : list value) : io unit :=
  if Nat.eqb (List.length responses) 0 then ret tt
  else
    await records <- lift (records_of responses);
    await text <- lift (csvContent records);
    writeFile_csv text.

(** *** POST /api/submit-survey *)

(** The identifier of line 113. *)
Definition new_id (e : env) : value :=
  JStr (number_to_string (clock_id e) ++ "_" ++ random_part e).

(** Lines 107-113: the timestamp when there is none, and the identifier. *)
Definition enrich (e : env) (surveyData : record) : record :=
  let surveyData :=
    if truthy (get surveyData "timestamp") then surveyData
    else set surveyData "timestamp" (JStr (Dates.toISOString (clock e))) in
  set surveyData "id" (new_id e).

(** Lines 126-134: the stored value, or the empty array when the file
    cannot be read or parsed. *)
Definition read_existing : io value :=
  catch (await data <- readFile; lift (JSON_parse data))
        (fun _ => ret (JArr [])).

(** [existingResponses.push(surveyData)]: only an array has [push]. *)
Definition push (existingResponses : value) (surveyData : record)
  : result (list value) :=
  match existingResponses with
  | JArr items => Ok (items ++ [JObj surveyData])%list
  | _ => Throw TypeError
  end.

(** The handler.  The body is the JSON object that [express.json] parsed
    (without a JSON body it is the empty object; an array has no [userType]
    either and is answered like it). *)
Definition submit (e : env) (body : record) : io submit_response :=
  catch
    (if negb (truthy (get body "userType"))
     then ret (BadRequest "User type is required")
     else
       let surveyData := enrich e body in
       await _ <- catch access_dir (fun _ => mkdir);
       await existingResponses <- read_existing;
       await existingResponses <- lift (push existingResponses surveyData);
       await _ <- writeFile (JSON_stringify (JArr existingResponses));
       await _ <- saveAsCSV existingResponses;
       ret (Submitted (get surveyData "id") (List.length existingResponses)))
    (fun err => ret (SaveFailed "Failed to save survey response" err)).

(** Submissions one after the other, each on the disk the previous one
    left. *)
Fixpoint submit_all (requests : list (env * record))
  : io (list submit_response) :=
  match requests with
  | [] => ret []
  | (e, body) :: rest =>
      await response <- submit e body;
      await responses <- submit_all rest;
      ret (response :: responses)
  end.

Definition succeeded (response : submit_response) : Prop :=
  match response with
  | Submitted _ _ => True
  | _ => False
  end.

(** The records a run of successful submissions appends. *)
Definition appended (requests : list (env * record)) : list value :=
  map (fun request => JObj (enrich (fst request) (snd request))) requests.

(** *** GET /api/responses *)

(** [responses.length] on whatever the store parsed to. *)
Definition length_of (responses : value) : result jsval :=
  match responses with
  | JNull => Throw TypeError
  | JArr items => Ok (Data (JNum (Z.of_nat (List.length items))))
  | JStr s => Ok (Data (JNum (Z.of_nat (String.length s))))
  | JObj r => Ok (get r "length")
  | JBool _ | JNum _ => Ok Undefined
  end.

Definition getAllResponses : io (query_response all_responses) :=
  catch
    (await data <- readFile;
     await responses <- lift (JSON_parse data);
     await n <- lift (length_of responses);
     ret (Found (mkAll n responses)))
    (fun err => ret (NotFound "No responses found" err)).

(** *** GET /api/stats *)

Section Stats.

(** The calendar day that [new Date(x).toDateString()] gives, in the time
    zone of the host, or ["Invalid Date"], for an [x] that [new Date]
    accepts.  It never yields the name of a property of
    [Object.prototype], so [dateCount[date]] below only ever reads what the
    loop has stored. *)
Variable toDateString : jsval -> string.

(** [new Date(x).toDateString()]: [new Date] converts [x] to a primitive
    first, which can throw. *)
Definition date_string (x : jsval) : result string :=
  try! _ <- to_primitive x; Ok (toDateString x).

(** [r.userType] and [r.timestamp] on an element of the stored array: no
    prototype of a primitive or of an array defines either name. *)
Definition member (r : value) (k : string) : result jsval :=
  match r with
  | JNull => Throw TypeError
  | JObj fields => Ok (get fields k)
  | _ => Ok Undefined
  end.

(** [dateCount[date]]. *)
Definition date_get (dateCount : list (string * Z)) (date : string) : option Z :=
  match find (fun kv => String.eqb (fst kv) date) dateCount with
  | Some kv => Some (snd kv)
  | None => None
  end.

(** [dateCount[date] = n]. *)
Fixpoint date_set (dateCount : list (string * Z)) (date : string) (n : Z)
  : list (string * Z) :=
  match dateCount with
  | [] => [(date, n)]
  | (k, m) :: rest =>
      if String.eqb k date then (k, n) :: rest
      else (k, m) :: date_set rest date n
  end.

(** One round of the [forEach]: [dateCount[date] = (dateCount[date] || 0) + 1]. *)
Definition count_date (dateCount : list (string * Z)) (date : string)
  : list (string * Z) :=
  let old := match date_get dateCount date with
             | Some n => if (n =? 0)%Z then 0%Z else n
             | None => 0%Z
             end in
  date_set dateCount date (old + 1)%Z.

Definition getResponsesByDate (responses : list value)
  : result (list (string * Z)) :=
  try! dates <- mapM (fun response =>
                        try! t <- member response "timestamp";
                        date_string t) responses;
  Ok (fold_left count_date dates []).

(** [responses.filter(r => r.userType === name).length]. *)
Definition count_userType (name : string) (responses : list value) : result nat :=
  try! flags <- mapM (fun r =>
                        try! u <- member r "userType";
                        Ok (match u with
                            | Data (JStr s) => String.eqb s name
                            | _ => false
                            end)) responses;
  Ok (List.length (filter (fun b => b) flags)).

(** Lines 231-237. *)
Definition compute_stats (responses : value) : result stats :=
  match responses with
  | JArr items =>
      try! stakeholders <- count_userType "stakeholder" items;
      try! participants <- count_userType "participant" items;
      try! byDate <- getResponsesByDate items;
      try! latest <-
        (if Nat.ltb 0 (List.length items)
         then match nth_error items (List.length items - 1) with
              | Some r => member r "timestamp"
              | None => Throw TypeError
              end
         else Ok (Data JNull));
      Ok (mkStats (List.length items) stakeholders participants byDate latest)
  | _ => Throw TypeError
  end.

Definition getStats : io (query_response stats) :=
  catch
    (await data <- readFile;
     await responses <- lift (JSON_parse data);
     await s <- lift (compute_stats responses);
     ret (Found s))
    (fun err => ret (NotFound "No responses found" err)).

(** *** Notions the theorems are stated with *)


(** The timestamp of the last record, [null] when there is none. *)
Definition latest_of (rs : list record) : jsval :=
  last (map (fun r => get r "timestamp") rs) (Data JNull).

(** Whether the [userType] of a record is the string [name]. *)
Definition userType_is (name : string) (r : record) : bool :=
  match own_get r "userType" with
  | Some (JStr s) => String.eqb s name
  | _ => false
  end.

(** The calendar day of a record. *)
Definition day_of (r : record) : string := toDateString (get r "timestamp").

End Stats.

(** What the store holds, as the submission handler reads it. *)
Definition stored (d : disk) : result value := snd (read_existing d).

(** *** A list in memory, written and read back *)



(** *** GET /api/download-csv *)

(** [fs.access(csvFile)]. *)
Definition access_csv : io unit :=
  fun d =>
    (d, match csvFile d with
        | Some _ => Ok tt
        | None => Throw ENOENT
        end).

(** [res.download(csvFile, name)]: the file as it is on the disk. *)
Definition res_download (name : string) : io download :=
  fun d =>
    (d, match csvFile d with
        | Some text => Ok (mkDownload name text)
        | None => Throw ENOENT
        end).

Definition downloadCsv : io (query_response download) :=
  catch
    (await _ <- access_csv;
     await file <- res_download "survey_responses.csv";
     ret (Found file))
    (fun err => ret (NotFound "CSV file not found" err)).

(** *** Further notions the theorems are stated with *)

(** Whether [new Date] accepts the timestamp of a record. *)
Definition dated (r : record) : bool :=
  match to_primitive (get r "timestamp") with
  | Ok _ => true
  | _ => false
  end.

(** The three fields a stored response is meant to have. *)
Definition has_required (r : record) : bool :=
  truthy (get r "userType") && truthy (get r "timestamp") && truthy (get r "id").

(** The sum of the counts of a day table. *)
Definition total_count (dateCount : list (string * Z)) : Z :=
  fold_right Z.add 0%Z (map snd dateCount).

(** What a submission takes from its surroundings to build the identifier. *)
Definition id_source (e : env) : Z * string := (clock_id e, random_part e).

End Server.

(** ** Sample data *)

Module Examples.

Definition env1 : env := mkEnv 1793556732123 1793556732125 "k3j9x0q2a".
Definition env2 : env := mkEnv 1793556792000 1793556792001 "p0o9i8u7y".

(** Nothing on disk yet. *)
Definition empty_disk : disk := mkDisk false None None true.

(** A disk on which no write can complete. *)
Definition full_disk : disk := mkDisk false None None false.


(** A store whose file is not JSON text, and one whose file is JSON text of
    an object. *)
Definition corrupt_disk : disk := mkDisk true (Some "not json") None true.
Definition object_disk : disk := mkDisk true (Some "{}") None true.

Definition participant : record :=
  [("userType", JStr "participant"); ("event_question", JStr "Workshop")].

Definition stakeholder : record :=
  [("userType", JStr "stakeholder"); ("id", JStr "mine");
   ("timestamp", JStr "2026-11-01T09:00:00.000Z");
   ("rating_questions", JArr [JNum 5; JNum 4])].

Definition no_userType : record := [("event_question", JStr "Workshop")].

Definition with_constructor : record :=
  [("userType", JStr "participant"); ("constructor", JStr "x")].

Definition plain : record := [("userType", JStr "participant")].

Definition zero_rating : record :=
  [("userType", JStr "participant"); ("rating", JNum 0)].

(** A payload whose timestamp is an object with a [toString] property of
    its own. *)
Definition object_timestamp : record :=
  [("userType", JStr "participant");
   ("timestamp", JObj [("toString", JNum 1)])].

(** A payload that carries the timestamp 0. *)
Definition zero_timestamp : record :=
  [("userType", JStr "participant"); ("timestamp", JNum 0)].


(** A key whose two double quotes are apart. *)
Definition split_quotes_key : string := "a" ++ q ++ "b" ++ q ++ "c".

(** An answer that is an object with a [toString] property of its own. *)
Definition shadowing : record :=
  [("userType", JStr "participant"); ("notes", JObj [("toString", JStr "x")])].

(** A key with two adjacent double quotes in it. *)
Definition quoted_key : string := "a" ++ q ++ q ++ "b".

(** A calendar-day function for the examples: the date part of an ISO
    timestamp. *)
Definition iso_day (x : jsval) : string :=
  match x with
  | Data (JStr s) => substring 0 10 s
  | _ => "Invalid Date"
  end.

Definition two_requests : list (env * record) :=
  [(env1, participant); (env2, stakeholder)].

(** Two records of one calendar day, the later one first. *)
Definition same_day_records : list record :=
  [ [("userType", JStr "participant");
     ("timestamp", JStr "2026-11-01T23:00:00.000Z")];
    [("userType", JStr "stakeholder");
     ("timestamp", JStr "2026-11-01T08:00:00.000Z")] ].

Definition same_day_disk : disk :=
  mkDisk true (Some (Json.stringify (JArr (map JObj same_day_records))))
    None true.

End Examples.

(** * Proofs *)

(** Induction on values, with the hypothesis for every element of an array
    and every property of an object. *)
Lemma value_ind (P : value -> Prop)
  (Hnull : P JNull)
  (Hbool : forall b, P (JBool b))
  (Hnum : forall n, P (JNum n))
  (Hstr : forall s, P (JStr s))
  (Harr : forall items, Forall P items -> P (JArr items))
  (Hobj : forall fields, Forall (fun kv => P (snd kv)) fields -> P (JObj fields)) :
  forall v, P v.
Proof.
  fix IH 1. intros [ | b | n | s | items | fields ].
  - exact Hnull.
  - apply Hbool.
  - apply Hnum.
  - apply Hstr.
  - apply Harr. induction items as [ | x items IHitems ]; constructor.
    + apply IH.
    + exact IHitems.
  - apply Hobj. induction fields as [ | [k x] fields IHfields ]; constructor.
    + apply IH.
    + exact IHfields.
Qed.

(** ** Strings *)

Module StringFacts.

Lemma length_append (a b : string) :
  String.length (a ++ b) = String.length a + String.length b.
Proof. induction a as [ | x a IH ]; cbn; [ reflexivity | now rewrite IH ]. Qed.

Lemma append_inj_l (a b c : string) : a ++ b = a ++ c -> b = c.
Proof.
  induction a as [ | x a IH ]; cbn; [ auto | ]. intros H. inversion H. auto.
Qed.

End StringFacts.

(** ** Dates *)

Module DatesFacts.

Import Dates StringFacts.

Lemma length_pad (width : nat) (n : Z) : String.length (pad width n) = width.
Proof.
  revert n. induction width as [ | w IH ]; intros n; [ reflexivity | ].
  cbn [pad]. rewrite length_append, IH. cbn. lia.
Qed.

(** In the years 0 to 9999 the result has the 24 characters of
    YYYY-MM-DDTHH:mm:ss.sssZ. *)
Lemma toISOString_length (t : Z) :
  (let '(y, _, _) := civil_from_days (t / msPerDay) in
   (0 <=? y)%Z && (y <=? 9999)%Z = true) ->
  String.length (toISOString t) = 24.
Proof.
  unfold toISOString.
  destruct (civil_from_days (t / msPerDay)) as [[y m] d].
  intros Hy. unfold year_string. rewrite Hy.
  repeat (rewrite length_append || rewrite length_pad).
  reflexivity.
Qed.

Example toISOString_epoch : toISOString 0 = "1970-01-01T00:00:00.000Z".
Proof. reflexivity. Qed.

Example toISOString_leap_day :
  toISOString 951782400000 = "2000-02-29T00:00:00.000Z".
Proof. reflexivity. Qed.

Example toISOString_before_epoch :
  toISOString (-1) = "1969-12-31T23:59:59.999Z".
Proof. reflexivity. Qed.

Example toISOString_env1 :
  toISOString (clock Examples.env1) = "2026-11-01T18:12:12.123Z".
Proof. reflexivity. Qed.

End DatesFacts.

(** ** JSON text: parsing what was printed *)

Module JsonFacts.

Import Json.
Local Open Scope list_scope.

Lemma escape_parse (c : ascii) (tail : list ascii) :
  parse_chars (escape c ++ tail) = cons_char c (parse_chars tail).
Proof.
  destruct c as [[] [] [] [] [] [] [] []]; reflexivity.
Qed.

Lemma parse_chars_escape_all (s : string) (rest : list ascii) :
  parse_chars (escape_all s ++ dquote :: rest) = Parsed s rest.
Proof.
  induction s as [ | c s IH ]; simpl.
  - reflexivity.
  - rewrite <- app_assoc, escape_parse, IH. reflexivity.
Qed.

Lemma read_uint_digits (u : uint) (rest : list ascii) :
  number_ends rest -> read_uint (Js.digits u ++ rest) = (u, rest).
Proof.
  intros H.
  induction u; simpl; try (rewrite IHu; reflexivity).
  destruct rest as [ | c r ]; simpl in *; [ reflexivity | ].
  destruct H as [H _]. now rewrite H.
Qed.

Lemma number_ends_continues (rest : list ascii) :
  number_ends rest -> continues_number rest = false.
Proof. destruct rest as [ | c r ]; [ reflexivity | now intros [_ H] ]. Qed.

Lemma uint_beq_refl (u : uint) : uint_beq u u = true.
Proof. now apply internal_uint_dec_lb. Qed.

Lemma unorm_to_uint (p : positive) : unorm (Pos.to_uint p) = Pos.to_uint p.
Proof.
  rewrite <- DecimalPos.Unsigned.to_of, DecimalPos.Unsigned.of_to.
  reflexivity.
Qed.

Lemma wf_number (n : Z) : wf (JNum n) = safe_integer n.
Proof. reflexivity. Qed.

Lemma parse_number_pos (p : positive) (rest : list ascii) :
  number_ends rest -> wf (JNum (Z.pos p)) = true ->
  parse_number false (Js.digits (Pos.to_uint p) ++ rest)
  = Parsed (JNum (Z.pos p)) rest.
Proof.
  intros H Hwf. unfold parse_number.
  rewrite read_uint_digits by exact H.
  rewrite unorm_to_uint, uint_beq_refl, (number_ends_continues rest H).
  change (Pos (Pos.to_uint p)) with (Z.to_int (Z.pos p)).
  rewrite DecimalZ.of_to. rewrite wf_number in Hwf. now rewrite Hwf.
Qed.

Lemma parse_number_neg (p : positive) (rest : list ascii) :
  number_ends rest -> wf (JNum (Z.neg p)) = true ->
  parse_number true (Js.digits (Pos.to_uint p) ++ rest)
  = Parsed (JNum (Z.neg p)) rest.
Proof.
  intros H Hwf. unfold parse_number.
  rewrite read_uint_digits by exact H.
  rewrite unorm_to_uint, uint_beq_refl, (number_ends_continues rest H).
  change (Neg (Pos.to_uint p)) with (Z.to_int (Z.neg p)).
  rewrite DecimalZ.of_to. rewrite wf_number in Hwf. now rewrite Hwf.
Qed.

Lemma parse_value_S (fuel : nat) (s : list ascii) :
  parse_value (S fuel) s =
  match skip_ws s with
  | [] => Malformed
  | c :: rest =>
      if Ascii.eqb c dquote then
        match parse_chars rest with
        | Parsed str rest' => Parsed (JStr str) rest'
        | Malformed => Malformed
        | Unsupported => Unsupported
        end
      else if Ascii.eqb c "["%char then
        match skip_ws rest with
        | [] => Malformed
        | c' :: rest' =>
            if Ascii.eqb c' "]"%char then Parsed (JArr []) rest'
            else parse_items fuel [] (c' :: rest')
        end
      else if Ascii.eqb c "{"%char then
        match skip_ws rest with
        | [] => Malformed
        | c' :: rest' =>
            if Ascii.eqb c' "}"%char then Parsed (JObj []) rest'
            else parse_members fuel [] (c' :: rest')
        end
      else if Ascii.eqb c "-"%char then parse_number true rest
      else
        match digit c with
        | Some _ => parse_number false (c :: rest)
        | None =>
            match strip (chars "null") (c :: rest) with
            | Some rest' => Parsed JNull rest'
            | None =>
                match strip (chars "true") (c :: rest) with
                | Some rest' => Parsed (JBool true) rest'
                | None =>
                    match strip (chars "false") (c :: rest) with
                    | Some rest' => Parsed (JBool false) rest'
                    | None => Malformed
                    end
                end
            end
        end
  end.
Proof. reflexivity. Qed.

(** Every digit string of a positive number starts with a digit. *)
Lemma digits_head (p : positive) :
  exists c t f, Js.digits (Pos.to_uint p) = c :: t /\ digit c = Some f
                /\ is_ws c = false /\ Ascii.eqb c dquote = false
                /\ Ascii.eqb c "["%char = false /\ Ascii.eqb c "{"%char = false
                /\ Ascii.eqb c "-"%char = false /\ Ascii.eqb c "]"%char = false.
Proof.
  pose proof (DecimalPos.Unsigned.to_uint_nonnil p) as Hnil.
  destruct (Pos.to_uint p) as [ | u | u | u | u | u | u | u | u | u | u ];
    [ congruence | .. ]; simpl; eexists _, _, _; repeat split.
Qed.

Lemma parse_value_number (fuel : nat) (n : Z) (rest : list ascii) :
  number_ends rest -> wf (JNum n) = true ->
  parse_value (S fuel) (Js.number_chars n ++ rest) = Parsed (JNum n) rest.
Proof.
  intros H Hwf. rewrite parse_value_S.
  destruct n as [ | p | p ]; unfold Js.number_chars; simpl Z.to_int; cbv iota.
  - change (Js.digits zero ++ rest) with ("0"%char :: rest).
    cbn [skip_ws is_ws Ascii.eqb Bool.eqb orb andb digit dquote].
    unfold parse_number.
    change ("0"%char :: rest) with (Js.digits (D0 Nil) ++ rest).
    rewrite read_uint_digits by exact H.
    now rewrite (number_ends_continues rest H).
  - pose proof (parse_number_pos p rest H Hwf) as HP.
    destruct (digits_head p) as (c & t & f & E & Hd & Hw & H1 & H2 & H3 & H4 & _).
    rewrite E in *. change ((c :: t) ++ rest) with (c :: t ++ rest) in *.
    cbn [skip_ws]. rewrite Hw, H1, H2, H3, H4, Hd. exact HP.
  - pose proof (parse_number_neg p rest H Hwf) as HP.
    change (("-"%char :: Js.digits (Pos.to_uint p)) ++ rest)
      with ("-"%char :: Js.digits (Pos.to_uint p) ++ rest).
    cbn [skip_ws is_ws Ascii.eqb Bool.eqb orb andb dquote]. exact HP.
Qed.

Local Ltac ends := first [ exact I | split; reflexivity ].

Lemma skip_ws_nl (ind : nat) (s : list ascii) : skip_ws (nl ind ++ s) = skip_ws s.
Proof.
  unfold nl. cbn [app skip_ws]. change (is_ws newline) with true. cbv iota.
  induction ind as [ | ind IH ]; [ reflexivity | exact IH ].
Qed.

Lemma skip_ws_head (c : ascii) (s : list ascii) :
  is_ws c = false -> skip_ws (c :: s) = c :: s.
Proof. intros H. cbn [skip_ws]. now rewrite H. Qed.

Lemma parse_value_nl (fuel ind : nat) (s : list ascii) :
  parse_value fuel (nl ind ++ s) = parse_value fuel s.
Proof.
  destruct fuel; [ reflexivity | ].
  now rewrite !parse_value_S, skip_ws_nl.
Qed.

Lemma parse_value_space (fuel : nat) (s : list ascii) :
  parse_value fuel (" "%char :: s) = parse_value fuel s.
Proof. destruct fuel; reflexivity. Qed.

Lemma parse_items_S (fuel : nat) (acc : list value) (s : list ascii) :
  parse_items (S fuel) acc s =
  match parse_value fuel s with
  | Malformed => Malformed
  | Unsupported => Unsupported
  | Parsed v rest =>
      match skip_ws rest with
      | [] => Malformed
      | c :: rest' =>
          if Ascii.eqb c comma then parse_items fuel (acc ++ [v]) rest'
          else if Ascii.eqb c "]"%char then Parsed (JArr (acc ++ [v])) rest'
          else Malformed
      end
  end.
Proof. reflexivity. Qed.

Lemma parse_members_S (fuel : nat) (acc : record) (s : list ascii) :
  parse_members (S fuel) acc s =
  match skip_ws s with
  | [] => Malformed
  | c :: rest =>
      if Ascii.eqb c dquote then
        match parse_chars rest with
        | Malformed => Malformed
        | Unsupported => Unsupported
        | Parsed k rest1 =>
            match skip_ws rest1 with
            | [] => Malformed
            | c1 :: rest2 =>
                if Ascii.eqb c1 ":"%char then
                  match parse_value fuel rest2 with
                  | Malformed => Malformed
                  | Unsupported => Unsupported
                  | Parsed v rest3 =>
                      match skip_ws rest3 with
                      | [] => Malformed
                      | c3 :: rest4 =>
                          if Ascii.eqb c3 comma
                          then parse_members fuel (Js.set acc k v) rest4
                          else if Ascii.eqb c3 "}"%char
                          then Parsed (JObj (Js.set acc k v)) rest4
                          else Malformed
                      end
                  end
                else Malformed
            end
        end
      else Malformed
  end.
Proof. reflexivity. Qed.

Lemma parse_items_nl (fuel ind : nat) (acc : list value) (s : list ascii) :
  parse_items fuel acc (nl ind ++ s) = parse_items fuel acc s.
Proof.
  destruct fuel; [ reflexivity | ].
  now rewrite !parse_items_S, parse_value_nl.
Qed.

Lemma parse_members_nl (fuel ind : nat) (acc : record) (s : list ascii) :
  parse_members fuel acc (nl ind ++ s) = parse_members fuel acc s.
Proof.
  destruct fuel; [ reflexivity | ].
  now rewrite !parse_members_S, skip_ws_nl.
Qed.

(** The text of a value starts with a character that is neither white
    space nor a closing bracket. *)
Lemma print_head (ind : nat) (v : value) :
  exists c t, print ind v = c :: t /\ is_ws c = false
              /\ Ascii.eqb c "]"%char = false.
Proof.
  destruct v as [ | [] | [ | p | p ] | s | [ | x xs ] | [ | kv fields ] ];
    try (eexists _, _; repeat split; fail).
  destruct (digits_head p) as (c & t & f & E & _ & Hw & _ & _ & _ & _ & H5).
  exists c, t. cbn [print Js.number_chars Z.to_int]. now rewrite E.
Qed.

Lemma join_chars_cons (sep : list ascii) (p : list ascii) (ps : list (list ascii)) :
  join_chars sep (p :: ps)
  = p ++ match ps with [] => [] | _ :: _ => sep ++ join_chars sep ps end.
Proof. destruct ps; cbn [join_chars]; [ now rewrite app_nil_r | reflexivity ]. Qed.

Lemma parse_items_join (items : list value) :
  Forall roundtrips items -> items <> [] ->
  forall fuel acc ind ind' rest,
    list_sum (map (fun x => S (size x)) items) <= fuel ->
    forallb wf items = true ->
    parse_items fuel acc
      (join_chars (comma :: nl ind') (map (print ind') items)
         ++ nl ind ++ "]"%char :: rest)
    = Parsed (JArr (acc ++ items)) rest.
Proof.
  induction 1 as [ | x xs Hx Hxs IH ]; [ congruence | intros _ ].
  intros fuel acc ind ind' rest Hfuel Hwf.
  cbn [map list_sum fold_right forallb] in Hfuel, Hwf.
  apply andb_true_iff in Hwf as [Hwfx Hwfxs].
  destruct fuel as [ | fuel ]; [ lia | ].
  cbn [map]. rewrite join_chars_cons, <- app_assoc, parse_items_S.
  destruct xs as [ | y ys ].
  - cbn [map list_sum fold_right] in Hfuel. cbn [map app].
    rewrite Hx; [ | lia | exact Hwfx | ends ].
    rewrite app_nil_l, skip_ws_nl. reflexivity.
  - remember (y :: ys) as l eqn:El.
    replace (match map (print ind') l with
             | [] => []
             | _ :: _ => (comma :: nl ind') ++
                         join_chars (comma :: nl ind') (map (print ind') l)
             end ++ nl ind ++ "]"%char :: rest)
      with (comma :: nl ind' ++ join_chars (comma :: nl ind') (map (print ind') l)
              ++ nl ind ++ "]"%char :: rest)
      by (subst l; cbn [map app]; now rewrite <- app_assoc).
    rewrite Hx; [ | lia | exact Hwfx | ends ].
    rewrite skip_ws_head by reflexivity.
    change (Ascii.eqb comma comma) with true. cbv iota.
    rewrite parse_items_nl.
    rewrite (IH ltac:(subst l; discriminate) fuel (acc ++ [x]) ind ind' rest);
      [ now rewrite <- app_assoc | unfold list_sum in *; lia | exact Hwfxs ].
Qed.

Local Ltac norm_app :=
  repeat (rewrite <- app_assoc || rewrite <- app_comm_cons || rewrite app_nil_l).

Lemma distinct_middle (l1 l2 : list string) (k : string) :
  distinct (l1 ++ k :: l2) = true -> existsb (String.eqb k) l1 = false.
Proof.
  induction l1 as [ | a l1 IH ]; [ reflexivity | ].
  cbn [app distinct existsb]. intros H.
  apply andb_true_iff in H as [Ha Hd].
  rewrite (IH Hd), orb_false_r.
  apply negb_true_iff in Ha. rewrite existsb_app in Ha.
  apply orb_false_iff in Ha as [_ Ha]. cbn [existsb] in Ha.
  apply orb_false_iff in Ha as [Ha _]. now rewrite String.eqb_sym.
Qed.

Lemma set_fresh (acc : record) (k : string) (v : value) :
  existsb (String.eqb k) (map fst acc) = false ->
  Js.set acc k v = acc ++ [(k, v)].
Proof.
  induction acc as [ | [k' v'] acc IH ]; [ reflexivity | ].
  cbn [map fst existsb Js.set app]. intros H.
  apply orb_false_iff in H as [Hk H].
  rewrite String.eqb_sym, Hk. now rewrite IH.
Qed.

Lemma parse_members_join (fields : record) :
  Forall (fun kv => roundtrips (snd kv)) fields -> fields <> [] ->
  forall fuel acc ind ind' rest,
    list_sum (map (fun kv => S (size (snd kv))) fields) <= fuel ->
    distinct (map fst (acc ++ fields)) = true ->
    forallb (fun kv => wf (snd kv)) fields = true ->
    parse_members fuel acc
      (join_chars (comma :: nl ind') (map (member_text ind') fields)
         ++ nl ind ++ "}"%char :: rest)
    = Parsed (JObj (acc ++ fields)) rest.
Proof.
  induction 1 as [ | [k x] xs Hx Hxs IH ]; [ congruence | intros _ ].
  intros fuel acc ind ind' rest Hfuel Hdist Hwf.
  cbn [map list_sum fold_right forallb snd] in Hfuel, Hwf, Hx.
  apply andb_true_iff in Hwf as [Hwfx Hwfxs].
  destruct fuel as [ | fuel ]; [ lia | ].
  assert (Hset : Js.set acc k x = acc ++ [(k, x)]).
  { apply set_fresh. rewrite map_app in Hdist. cbn [map fst] in Hdist.
    now apply distinct_middle in Hdist. }
  assert (Hstep : forall tail,
             number_ends tail ->
             parse_members (S fuel) acc (member_text ind' (k, x) ++ tail)
             = match skip_ws tail with
               | [] => Malformed
               | c3 :: rest4 =>
                   if Ascii.eqb c3 comma
                   then parse_members fuel (acc ++ [(k, x)]) rest4
                   else if Ascii.eqb c3 "}"%char
                   then Parsed (JObj (acc ++ [(k, x)])) rest4
                   else Malformed
               end).
  { intros tail Htail. rewrite parse_members_S.
    unfold member_text, print_string. cbn [fst snd].
    change (chars ": ") with [":"%char; " "%char].
    norm_app. rewrite skip_ws_head by reflexivity.
    change (Ascii.eqb dquote dquote) with true. cbv iota.
    rewrite parse_chars_escape_all.
    rewrite skip_ws_head by reflexivity.
    change (Ascii.eqb ":"%char ":"%char) with true. cbv iota.
    rewrite parse_value_space.
    rewrite Hx; [ | lia | exact Hwfx | exact Htail ].
    now rewrite Hset. }
  destruct xs as [ | y ys ].
  - cbn [map join_chars]. rewrite Hstep by ends.
    now rewrite skip_ws_nl.
  - change (map (member_text ind') ((k, x) :: y :: ys))
      with (member_text ind' (k, x) :: map (member_text ind') (y :: ys)).
    rewrite join_chars_cons.
    remember (y :: ys) as l eqn:El.
    assert (Hl : l <> []) by (subst l; discriminate).
    destruct (map (member_text ind') l) as [ | m ms ] eqn:Em;
      [ subst l; discriminate | ].
    rewrite <- Em. norm_app.
    rewrite Hstep by ends.
    rewrite skip_ws_head by reflexivity.
    change (Ascii.eqb comma comma) with true. cbv iota.
    rewrite parse_members_nl.
    rewrite (IH Hl fuel (acc ++ [(k, x)]) ind ind' rest);
      [ now rewrite <- app_assoc | unfold list_sum in *; lia
      | now rewrite <- app_assoc | exact Hwfxs ].
Qed.

(** Parsing the text of a value gives the value back and stops after it. *)
Theorem parse_print (v : value) : roundtrips v.
Proof.
  induction v as [ | b | n | s | items IH | fields IH ] using value_ind;
    intros ind rest fuel Hfuel Hwf Hrest;
    (destruct fuel as [ | fuel ]; [ cbn in Hfuel; lia | ]).
  - reflexivity.
  - destruct b; reflexivity.
  - now apply parse_value_number.
  - rewrite parse_value_S. unfold print, print_string.
    norm_app. rewrite skip_ws_head by reflexivity.
    change (Ascii.eqb dquote dquote) with true. cbv iota.
    now rewrite parse_chars_escape_all.
  - destruct items as [ | x xs ]; [ reflexivity | ].
    remember (x :: xs) as l eqn:El.
    assert (Hp : print ind (JArr l)
                 = "["%char :: nl (2 + ind)
                     ++ join_chars (comma :: nl (2 + ind)) (map (print (2 + ind)) l)
                     ++ nl ind ++ ["]"%char]) by (subst l; reflexivity).
    rewrite Hp, parse_value_S. norm_app.
    rewrite skip_ws_head by reflexivity.
    change (Ascii.eqb "["%char dquote) with false.
    change (Ascii.eqb "["%char "["%char) with true. cbv iota.
    rewrite skip_ws_nl.
    assert (Hj : exists c t,
               join_chars (comma :: nl (2 + ind)) (map (print (2 + ind)) l)
               = c :: t /\ is_ws c = false /\ Ascii.eqb c "]"%char = false).
    { subst l. cbn [map]. rewrite join_chars_cons.
      destruct (print_head (2 + ind) x) as (c & t & E & Hw & Hc).
      rewrite E. eexists _, _. split; [ reflexivity | now split ]. }
    destruct Hj as (c & t & Ej & Hw & Hc).
    rewrite Ej at 1. rewrite <- app_comm_cons, skip_ws_head by exact Hw.
    rewrite Hc, app_comm_cons, <- Ej.
    apply (parse_items_join l IH ltac:(subst l; discriminate) fuel [] ind (2 + ind) rest).
    + cbn [size] in Hfuel. lia.
    + exact Hwf.
  - destruct fields as [ | kv xs ]; [ reflexivity | ].
    remember (kv :: xs) as l eqn:El.
    assert (Hp : print ind (JObj l)
                 = "{"%char :: nl (2 + ind)
                     ++ join_chars (comma :: nl (2 + ind)) (map (member_text (2 + ind)) l)
                     ++ nl ind ++ ["}"%char]) by (subst l; reflexivity).
    rewrite Hp, parse_value_S. norm_app.
    rewrite skip_ws_head by reflexivity.
    change (Ascii.eqb "{"%char dquote) with false.
    change (Ascii.eqb "{"%char "["%char) with false.
    change (Ascii.eqb "{"%char "{"%char) with true. cbv iota.
    rewrite skip_ws_nl.
    assert (Hj : exists t,
               join_chars (comma :: nl (2 + ind)) (map (member_text (2 + ind)) l)
               = dquote :: t).
    { subst l. cbn [map]. rewrite join_chars_cons.
      unfold member_text at 1, print_string. eexists. reflexivity. }
    destruct Hj as (t & Ej).
    rewrite Ej at 1. rewrite <- app_comm_cons, skip_ws_head by reflexivity.
    change (Ascii.eqb dquote "}"%char) with false. cbv iota.
    rewrite app_comm_cons, <- Ej.
    cbn [wf] in Hwf. apply andb_true_iff in Hwf as [Hd Hw].
    apply (parse_members_join l IH ltac:(subst l; discriminate) fuel [] ind (2 + ind) rest).
    + cbn [size] in Hfuel. lia.
    + exact Hd.
    + exact Hw.
Qed.

Lemma length_nl (ind : nat) : length (nl ind) = S ind.
Proof. unfold nl. cbn [length]. now rewrite repeat_length. Qed.

Lemma join_chars_size {A : Type} (sz : A -> nat) (pr : A -> list ascii)
      (sep : list ascii) (l : list A) :
  1 <= length sep ->
  Forall (fun x => sz x <= length (pr x)) l ->
  list_sum (map (fun x => S (sz x)) l) <= S (length (join_chars sep (map pr l))).
Proof.
  intros Hsep. induction 1 as [ | x xs Hx Hxs IH ]; [ cbn; lia | ].
  cbn [map]. rewrite join_chars_cons. cbn [list_sum fold_right].
  unfold list_sum in IH.
  destruct xs as [ | y ys ].
  - cbn [map fold_right]. rewrite !length_app. cbn [length]. lia.
  - remember (y :: ys) as l. cbn [map] in *.
    destruct (map pr l) eqn:E; [ subst l; discriminate | ].
    rewrite !length_app. lia.
Qed.

Lemma size_le_length (v : value) : forall ind, size v <= length (print ind v).
Proof.
  induction v as [ | b | n | s | items IH | fields IH ] using value_ind; intros ind.
  - cbn. lia.
  - destruct b; cbn; lia.
  - destruct (print_head ind (JNum n)) as (c & t & E & _). rewrite E. cbn. lia.
  - cbn [print size]. unfold print_string. cbn [length]. lia.
  - destruct items as [ | x xs ]; [ cbn; lia | ].
    remember (x :: xs) as l eqn:El.
    assert (Hp : print ind (JArr l)
                 = "["%char :: nl (2 + ind)
                     ++ join_chars (comma :: nl (2 + ind)) (map (print (2 + ind)) l)
                     ++ nl ind ++ ["]"%char]) by (subst l; reflexivity).
    rewrite Hp. cbn [size length]. rewrite !length_app, !length_nl.
    pose proof (join_chars_size size (print (2 + ind)) (comma :: nl (2 + ind)) l
                  ltac:(cbn; lia)) as Hj.
    cbn [length]. specialize (Hj ltac:(eapply Forall_impl; [ | exact IH ]; intros a Ha; apply Ha)).
    lia.
  - destruct fields as [ | kv xs ]; [ cbn; lia | ].
    remember (kv :: xs) as l eqn:El.
    assert (Hp : print ind (JObj l)
                 = "{"%char :: nl (2 + ind)
                     ++ join_chars (comma :: nl (2 + ind)) (map (member_text (2 + ind)) l)
                     ++ nl ind ++ ["}"%char]) by (subst l; reflexivity).
    rewrite Hp. cbn [size length]. rewrite !length_app, !length_nl.
    pose proof (join_chars_size (fun kv => size (snd kv)) (member_text (2 + ind))
                  (comma :: nl (2 + ind)) l ltac:(cbn; lia)) as Hj.
    cbn [length].
    specialize (Hj ltac:(eapply Forall_impl; [ | exact IH ]; intros a Ha;
                        unfold member_text; rewrite !length_app;
                        specialize (Ha (2 + ind)); cbn beta in *; lia)).
    lia.
Qed.

Lemma chars_string_of (l : list ascii) : chars (string_of_list_ascii l) = l.
Proof. apply list_ascii_of_string_of_list_ascii. Qed.

(** [JSON.parse(JSON.stringify(v, null, 2))] is [v]. *)
Theorem parse_stringify (v : value) :
  wf v = true -> parse (stringify v) = Ok v.
Proof.
  intros Hwf. unfold parse, stringify. rewrite chars_string_of.
  pose proof (parse_print v 0 [] (S (length (print 0 v)))) as H.
  rewrite app_nil_r in H.
  rewrite H; [ reflexivity | | exact Hwf | exact I ].
  pose proof (size_le_length v 0). lia.
Qed.

(** *** What the parser returns is a JavaScript value in the sense of [wf] *)

Lemma set_keys_distinct (acc : record) (k : string) (v : value) :
  distinct (map fst acc) = true -> distinct (map fst (Js.set acc k v)) = true.
Proof.
  assert (Hex : forall a acc, String.eqb a k = false ->
                existsb (String.eqb a) (map fst (Js.set acc k v))
                = existsb (String.eqb a) (map fst acc)).
  { intros a acc0 Ha. induction acc0 as [ | [k' v'] acc0 IH ].
    - cbn. now rewrite Ha.
    - cbn [Js.set]. destruct (String.eqb k' k) eqn:E; cbn [map fst existsb].
      + reflexivity.
      + now rewrite IH. }
  induction acc as [ | [k' v'] acc IH ]; [ reflexivity | ].
  cbn [Js.set]. destruct (String.eqb k' k) eqn:E.
  - trivial.
  - cbn [map fst distinct]. intros H. apply andb_true_iff in H as [H1 H2].
    rewrite (Hex k' acc E), H1. now apply IH.
Qed.

Lemma set_values_wf (acc : record) (k : string) (v : value) :
  forallb (fun kv => wf (snd kv)) acc = true -> wf v = true ->
  forallb (fun kv => wf (snd kv)) (Js.set acc k v) = true.
Proof.
  intros Hacc Hv. induction acc as [ | [k' v'] acc IH ]; cbn [Js.set].
  - cbn [forallb snd]. now rewrite Hv.
  - cbn [forallb snd] in Hacc. apply andb_true_iff in Hacc as [H1 H2].
    destruct (String.eqb k' k); cbn [forallb snd].
    + now rewrite Hv, H2.
    + now rewrite H1, IH.
Qed.

Lemma wf_object (fields : record) :
  wf (JObj fields)
  = distinct (map fst fields) && forallb (fun kv => wf (snd kv)) fields.
Proof. reflexivity. Qed.

Lemma wf_array (items : list value) : wf (JArr items) = forallb wf items.
Proof. reflexivity. Qed.

Lemma set_wf (acc : record) (k : string) (v : value) :
  wf (JObj acc) = true -> wf v = true -> wf (JObj (Js.set acc k v)) = true.
Proof.
  rewrite !wf_object. intros H Hv. apply andb_true_iff in H as [H1 H2].
  now rewrite set_keys_distinct, set_values_wf.
Qed.

Lemma parse_number_wf (neg : bool) (s : list ascii) (v : value) (rest : list ascii) :
  parse_number neg s = Parsed v rest -> wf v = true.
Proof.
  unfold parse_number. destruct (read_uint s) as [u r].
  destruct (uint_beq (unorm u) u); [ | discriminate ].
  destruct (continues_number r); [ discriminate | ].
  destruct (safe_integer _) eqn:E; [ | discriminate ].
  intros H. injection H as <- _. now rewrite wf_number.
Qed.

Lemma parse_wf (fuel : nat) :
  (forall s v rest, parse_value fuel s = Parsed v rest -> wf v = true)
  /\ (forall acc s v rest, forallb wf acc = true ->
        parse_items fuel acc s = Parsed v rest -> wf v = true)
  /\ (forall acc s v rest, wf (JObj acc) = true ->
        parse_members fuel acc s = Parsed v rest -> wf v = true).
Proof.
  induction fuel as [ | fuel (IHv & IHi & IHm) ];
    [ repeat split; intros; discriminate | ].
  repeat split.
  - intros s v rest. rewrite parse_value_S.
    repeat match goal with
           | |- context [ match ?x with _ => _ end ] =>
               lazymatch x with
               | parse_items _ _ _ => fail
               | parse_members _ _ _ => fail
               | parse_number _ _ => fail
               | _ => destruct x eqn:?
               end
           end;
      try discriminate;
      try (intros H; injection H as <- _; reflexivity);
      try (intros H; now apply parse_number_wf in H).
    + intros H. now apply IHi in H.
    + intros H. now apply IHm in H.
  - intros acc s v rest Hacc. rewrite parse_items_S.
    destruct (parse_value fuel s) as [ x r | | ] eqn:Ev; try discriminate.
    apply IHv in Ev.
    assert (Hacc' : forallb wf (acc ++ [x]) = true)
      by (rewrite forallb_app, Hacc; cbn [forallb]; now rewrite Ev).
    destruct (skip_ws r) as [ | c r' ]; [ discriminate | ].
    destruct (Ascii.eqb c comma); [ now apply IHi | ].
    destruct (Ascii.eqb c "]"%char); [ | discriminate ].
    intros H. injection H as <- _. now rewrite wf_array.
  - intros acc s v rest Hacc. rewrite parse_members_S.
    destruct (skip_ws s) as [ | c r ]; [ discriminate | ].
    destruct (Ascii.eqb c dquote); [ | discriminate ].
    destruct (parse_chars r) as [ k r1 | | ]; try discriminate.
    destruct (skip_ws r1) as [ | c1 r2 ]; [ discriminate | ].
    destruct (Ascii.eqb c1 ":"%char); [ | discriminate ].
    destruct (parse_value fuel r2) as [ x r3 | | ] eqn:Ev; try discriminate.
    apply IHv in Ev.
    pose proof (set_wf acc k x Hacc Ev) as Hset.
    destruct (skip_ws r3) as [ | c3 r4 ]; [ discriminate | ].
    destruct (Ascii.eqb c3 comma); [ now apply IHm | ].
    destruct (Ascii.eqb c3 "}"%char); [ | discriminate ].
    intros H. injection H as <- _. exact Hset.
Qed.

Theorem parse_result_wf (text : string) (v : value) :
  parse text = Ok v -> wf v = true.
Proof.
  unfold parse.
  destruct (parse_value _ _) as [ x r | | ] eqn:E; try discriminate.
  destruct (skip_ws r); [ | discriminate ].
  intros H. injection H as <-.
  now apply (proj1 (parse_wf _)) in E.
Qed.

End JsonFacts.

(** ** Timestamps read back *)

Module IsoFacts.
Import Dates.
Local Open Scope Z_scope.

Lemma append_assoc (a b c : string) : ((a ++ b) ++ c = a ++ (b ++ c))%string.
Proof. induction a as [ | x a IH ]; cbn; [ reflexivity | now rewrite IH ]. Qed.

Lemma digit_value_char (k : Z) :
  0 <= k <= 9 -> digit_value (digit_char k) = Some k.
Proof.
  intros H. unfold digit_value, digit_char.
  rewrite N_ascii_embedding by lia.
  replace (Z.of_N (48 + Z.to_N k) - 48) with k by lia.
  destruct (0 <=? k) eqn:E1; [ | lia ].
  destruct (k <=? 9) eqn:E2; [ reflexivity | lia ].
Qed.

Lemma read_number_pad (w : nat) :
  forall (n acc : Z) (k : nat) (rest : string),
    0 <= n < 10 ^ Z.of_nat w ->
    read_number (w + k) acc (pad w n ++ rest)
    = read_number k (acc * 10 ^ Z.of_nat w + n) rest.
Proof.
  induction w as [ | w IH ]; intros n acc k rest Hn.
  - cbn [pad Nat.add String.append]. f_equal. cbn in Hn. lia.
  - cbn [pad]. rewrite append_assoc. cbn [String.append].
    replace (S w + k)%nat with (w + S k)%nat by lia.
    rewrite Nat2Z.inj_succ, Z.pow_succ_r in Hn by lia.
    rewrite IH by (split; [ apply Z.div_pos; lia | apply Z.div_lt_upper_bound; lia ]).
    cbn [read_number].
    rewrite digit_value_char
      by (pose proof (Z.mod_pos_bound n 10 ltac:(lia)); lia).
    f_equal. rewrite Nat2Z.inj_succ, Z.pow_succ_r by lia.
    pose proof (Z.div_mod n 10 ltac:(lia)). lia.
Qed.

Lemma read_field_pad (w : nat) (low bound n : Z) (c : ascii) (rest : string) :
  0 <= n < 10 ^ Z.of_nat w -> low <= n <= bound ->
  read_field w low bound c (pad w n ++ String c rest) = Some (n, rest).
Proof.
  intros Hn Hb. unfold read_field.
  replace w with (w + 0)%nat at 1 by lia.
  rewrite read_number_pad by exact Hn. cbn [read_number].
  rewrite Ascii.eqb_refl. cbn [andb].
  replace (0 * 10 ^ Z.of_nat w + n) with n by lia.
  destruct (low <=? n) eqn:E1; [ | lia ].
  destruct (n <=? bound) eqn:E2; [ reflexivity | lia ].
Qed.

End IsoFacts.

Module CivilFacts.
Import Dates.
Local Open Scope Z_scope.

Lemma civil_round_trip (days : Z) :
  -719528 <= days <= 2932896 ->
  let '(y, m, d) := civil_from_days days in
  0 <= y <= 9999 /\ 1 <= m <= 12 /\ 1 <= d <= 31
  /\ days_from_civil y m d = days.
Proof.
  intros H. unfold civil_from_days, days_from_civil. cbv zeta.
  set (z := days + 719468).
  set (era := z / 146097).
  set (doe := z - era * 146097).
  set (yoe := (doe - doe / 1460 + doe / 36524 - doe / 146096) / 365).
  set (doy := doe - (365 * yoe + yoe / 4 - yoe / 100)).
  set (mp := (5 * doy + 2) / 153).
  assert (Hz : -60 <= z <= 3652364) by (subst z; lia).
  assert (Hera : -1 <= era <= 24) by (subst era; Z.div_mod_to_equations; lia).
  assert (Hdoe : 0 <= doe <= 146096) by (subst doe era; Z.div_mod_to_equations; lia).
  assert (Hy : 0 <= yoe <= 399 /\ 0 <= doy <= 365).
  { subst yoe doy. revert Hdoe. generalize doe. clear. intros doe Hdoe.
    Z.div_mod_to_equations. lia. }
  destruct Hy as [Hyoe Hdoy].
  assert (Hmp : 0 <= mp <= 11) by (subst mp; Z.div_mod_to_equations; lia).
  assert (Hlast : era = 24 -> yoe = 399 -> mp <= 9).
  { intros E1 E2. subst mp doy. rewrite E2. subst doe. rewrite E1.
    Z.div_mod_to_equations. lia. }
  assert (Hfirst : era = -1 -> yoe = 399 /\ 10 <= mp).
  { intros E1. assert (E2 : 146037 <= doe) by (subst doe; lia).
    assert (E3 : yoe = 399).
    { subst yoe. revert Hdoe E2. generalize doe. clear. intros doe H1 H2.
      Z.div_mod_to_equations. lia. }
    split; [ exact E3 | ].
    subst mp doy. rewrite E3. Z.div_mod_to_equations. lia. }
  destruct (mp <? 10) eqn:Emp.
  - apply Z.ltb_lt in Emp.
    replace (mp + 3 <=? 2) with false by (symmetry; apply Z.leb_gt; lia).
    replace (2 <? mp + 3) with true by (symmetry; apply Z.ltb_lt; lia).
    replace (mp + 3 - 3) with mp by lia.
    repeat split; try lia.
    + subst mp. Z.div_mod_to_equations. lia.
    + subst mp. Z.div_mod_to_equations. lia.
    + replace ((yoe + era * 400) / 400) with era
        by (Z.div_mod_to_equations; lia).
      subst doy doe z. Z.div_mod_to_equations. lia.
  - apply Z.ltb_ge in Emp.
    replace (mp - 9 <=? 2) with true by (symmetry; apply Z.leb_le; lia).
    replace (2 <? mp - 9) with false by (symmetry; apply Z.ltb_ge; lia).
    replace (mp - 9 + 9) with mp by lia.
    replace (yoe + era * 400 + 1 - 1) with (yoe + era * 400) by lia.
    assert (era = 24 -> yoe <= 398) by lia.
    repeat split; try lia.
    + subst mp. Z.div_mod_to_equations. lia.
    + subst mp. Z.div_mod_to_equations. lia.
    + replace ((yoe + era * 400) / 400) with era
        by (Z.div_mod_to_equations; lia).
      subst doy doe z. Z.div_mod_to_equations. lia.
Qed.

End CivilFacts.

Module IsoRoundTrip.
Import Dates IsoFacts CivilFacts.
Local Open Scope Z_scope.

(** Whatever the day number, the date it is given is a date, of that day
    number, in a year of the 400 that its era spans. *)
Lemma civil_inverse (days : Z) :
  let '(y, m, d) := civil_from_days days in
  1 <= m <= 12 /\ 1 <= d <= 31
  /\ days_from_civil y m d = days
  /\ (days + 719468) / 146097 * 400 <= y <= (days + 719468) / 146097 * 400 + 400.
Proof.
  unfold civil_from_days, days_from_civil. cbv zeta.
  set (z := days + 719468).
  set (era := z / 146097).
  set (doe := z - era * 146097).
  set (yoe := (doe - doe / 1460 + doe / 36524 - doe / 146096) / 365).
  set (doy := doe - (365 * yoe + yoe / 4 - yoe / 100)).
  set (mp := (5 * doy + 2) / 153).
  assert (Hdoe : 0 <= doe <= 146096) by (subst doe era; Z.div_mod_to_equations; lia).
  assert (Hy : 0 <= yoe <= 399 /\ 0 <= doy <= 365).
  { subst yoe doy. revert Hdoe. generalize doe. clear. intros doe Hdoe.
    Z.div_mod_to_equations. lia. }
  destruct Hy as [Hyoe Hdoy].
  assert (Hmp : 0 <= mp <= 11) by (subst mp; Z.div_mod_to_equations; lia).
  destruct (mp <? 10) eqn:Emp.
  - apply Z.ltb_lt in Emp.
    replace (mp + 3 <=? 2) with false by (symmetry; apply Z.leb_gt; lia).
    replace (2 <? mp + 3) with true by (symmetry; apply Z.ltb_lt; lia).
    replace (mp + 3 - 3) with mp by lia.
    repeat split; try lia.
    + subst mp. Z.div_mod_to_equations. lia.
    + subst mp. Z.div_mod_to_equations. lia.
    + replace ((yoe + era * 400) / 400) with era
        by (Z.div_mod_to_equations; lia).
      subst doy doe z. Z.div_mod_to_equations. lia.
  - apply Z.ltb_ge in Emp.
    replace (mp - 9 <=? 2) with true by (symmetry; apply Z.leb_le; lia).
    replace (2 <? mp - 9) with false by (symmetry; apply Z.ltb_ge; lia).
    replace (mp - 9 + 9) with mp by lia.
    replace (yoe + era * 400 + 1 - 1) with (yoe + era * 400) by lia.
    repeat split; try lia.
    + subst mp. Z.div_mod_to_equations. lia.
    + subst mp. Z.div_mod_to_equations. lia.
    + replace ((yoe + era * 400) / 400) with era
        by (Z.div_mod_to_equations; lia).
      subst doy doe z. Z.div_mod_to_equations. lia.
Qed.

Lemma digit_char_not_sign (k : Z) :
  0 <= k <= 9 ->
  Ascii.eqb (digit_char k) "+" = false /\ Ascii.eqb (digit_char k) "-" = false.
Proof.
  intros H.
  assert (E : k = 0 \/ k = 1 \/ k = 2 \/ k = 3 \/ k = 4 \/ k = 5 \/ k = 6
              \/ k = 7 \/ k = 8 \/ k = 9) by lia.
  repeat (destruct E as [ -> | E ]; [ split; reflexivity | ]).
  subst k. split; reflexivity.
Qed.

Lemma read_year_string (y : Z) (rest : string) :
  -999999 <= y <= 999999 ->
  read_year (year_string y ++ String "-" rest) = Some (y, rest).
Proof.
  intros Hy. unfold year_string.
  destruct ((0 <=? y) && (y <=? 9999))%bool eqn:E.
  - apply andb_prop in E. destruct E as [E1 E2].
    apply Z.leb_le in E1, E2.
    assert (Hhead : exists k tail,
               0 <= k <= 9
               /\ (pad 4 y ++ String "-" rest)%string = String (digit_char k) tail).
    { cbn [pad String.append]. eexists. eexists. split; [ | reflexivity ].
      Z.div_mod_to_equations. lia. }
    destruct Hhead as (k & tail & Hk & Hhead).
    unfold read_year. rewrite Hhead.
    destruct (digit_char_not_sign k Hk) as [ -> -> ]. rewrite <- Hhead.
    apply read_field_pad; cbn; lia.
  - assert (Hout : y < 0 \/ 9999 < y).
    { destruct (0 <=? y) eqn:E1; [ | apply Z.leb_gt in E1; lia ].
      destruct (y <=? 9999) eqn:E2; [ discriminate | apply Z.leb_gt in E2; lia ]. }
    destruct (y <? 0) eqn:E3.
    + apply Z.ltb_lt in E3. cbn [String.append read_year Ascii.eqb Bool.eqb].
      rewrite read_field_pad by (cbn; lia). f_equal. f_equal. lia.
    + apply Z.ltb_ge in E3. cbn [String.append read_year Ascii.eqb Bool.eqb].
      rewrite read_field_pad by (cbn; lia). reflexivity.
Qed.

(** The text that [toISOString] gives for an instant denotes that instant,
    whatever time value the instant is. *)
Theorem instant_of_toISOString (t : Z) :
  time_value t -> instant_of (toISOString t) = Some t.
Proof.
  unfold time_value, toISOString, msPerDay. intros Ht.
  set (day := t / 86400000). set (ms := t mod 86400000).
  assert (Hday : -100000000 <= day <= 100000000)
    by (subst day; Z.div_mod_to_equations; lia).
  assert (Hms : 0 <= ms < 86400000)
    by (subst ms; apply Z.mod_pos_bound; lia).
  pose proof (civil_inverse day) as Hc.
  destruct (civil_from_days day) as [[y m] d].
  destruct Hc as (Hm & Hd & Hback & Hy).
  assert (Hyear : -999999 <= y <= 999999)
    by (revert Hy; Z.div_mod_to_equations; lia).
  cbn [String.append]. unfold instant_of.
  rewrite (read_year_string y _ Hyear).
  rewrite read_field_pad by (cbn; lia).
  rewrite read_field_pad by (cbn; lia).
  rewrite read_field_pad by (cbn; Z.div_mod_to_equations; lia).
  rewrite read_field_pad by (cbn; Z.div_mod_to_equations; lia).
  rewrite read_field_pad by (cbn; Z.div_mod_to_equations; lia).
  rewrite read_field_pad by (cbn; Z.div_mod_to_equations; lia).
  f_equal. rewrite Hback. unfold msPerDay. subst day ms.
  Z.div_mod_to_equations. lia.
Qed.

Lemma four_digit_time_value (t : Z) : four_digit_year t -> time_value t.
Proof. unfold four_digit_year, time_value. lia. Qed.

Lemma toISOString_length_24 (t : Z) :
  four_digit_year t -> String.length (toISOString t) = 24%nat.
Proof.
  unfold four_digit_year. intros Ht. apply DatesFacts.toISOString_length.
  assert (Hday : -719528 <= t / msPerDay <= 2932896)
    by (unfold msPerDay; Z.div_mod_to_equations; lia).
  pose proof (civil_round_trip _ Hday) as Hc.
  destruct (civil_from_days (t / msPerDay)) as [[y m] d].
  destruct Hc as (Hy & _).
  apply andb_true_intro; split; apply Z.leb_le; lia.
Qed.

End IsoRoundTrip.

(** ** Values in memory *)


Module MemoryFacts.

Import Memory.
Local Open Scope list_scope.

(** What [JSON.parse] builds is written as it was read. *)
Lemma to_json_of_json (v : value) : to_json (of_json v) = v.
Proof.
  induction v as [ | b | n | s | items IH | fields IH ] using value_ind;
    cbn [of_json to_json]; try reflexivity.
  - f_equal.
    induction IH as [ | x items Hx _ IHitems ]; cbn [map]; [ reflexivity | ].
    now rewrite Hx, IHitems.
  - f_equal.
    induction IH as [ | [k x] fields Hx _ IHfields ]; cbn [map fst snd];
      [ reflexivity | ].
    cbn [snd] in Hx. now rewrite Hx, IHfields.
Qed.


End MemoryFacts.

(** ** Properties of objects *)

Module JsFacts.

Import Js.
Local Open Scope list_scope.

Lemma own_get_set_same (r : record) (k : string) (v : value) :
  own_get (set r k v) k = Some v.
Proof.
  induction r as [ | [k' v'] r IH ]; cbn [set own_get].
  - now rewrite String.eqb_refl.
  - destruct (String.eqb k' k) eqn:E; cbn [own_get]; now rewrite E.
Qed.

Lemma own_get_set_other (r : record) (k k' : string) (v : value) :
  k <> k' -> own_get (set r k v) k' = own_get r k'.
Proof.
  intros Hk. induction r as [ | [k0 v0] r IH ]; cbn [set own_get].
  - apply String.eqb_neq in Hk. now rewrite Hk.
  - destruct (String.eqb k0 k) eqn:E; cbn [own_get].
    + apply String.eqb_eq in E. subst k0.
      apply String.eqb_neq in Hk. now rewrite Hk.
    + now rewrite IH.
Qed.

Lemma get_own (r : record) (k : string) (v : value) :
  own_get r k = Some v -> get r k = Data v.
Proof. unfold get. now intros ->. Qed.

Lemma get_absent (r : record) (k : string) :
  own_get r k = None -> Object_prototype k = None -> get r k = Undefined.
Proof. unfold get. now intros -> ->. Qed.

End JsFacts.

(** ** The submission handler *)

Module ServerFacts.

Import Js JsFacts Server JsonFacts.
Local Open Scope list_scope.

Lemma enrich_id (e : env) (body : record) :
  own_get (enrich e body) "id" = Some (new_id e).
Proof. unfold enrich. apply own_get_set_same. Qed.

Lemma enrich_timestamp_kept (e : env) (body : record) (t : value) :
  own_get body "timestamp" = Some t -> Js.truthy_value t = true ->
  own_get (enrich e body) "timestamp" = Some t.
Proof.
  intros Ht Htrue. unfold enrich.
  rewrite own_get_set_other by discriminate.
  now rewrite (get_own _ _ _ Ht); cbn [truthy]; rewrite Htrue.
Qed.

Lemma enrich_timestamp_set (e : env) (body : record) :
  truthy (get body "timestamp") = false ->
  own_get (enrich e body) "timestamp"
  = Some (JStr (Dates.toISOString (clock e))).
Proof.
  intros Ht. unfold enrich. rewrite own_get_set_other by discriminate.
  rewrite Ht. apply own_get_set_same.
Qed.

Lemma enrich_other (e : env) (body : record) (k : string) :
  k <> "id" -> k <> "timestamp" ->
  own_get (enrich e body) k = own_get body k.
Proof.
  intros H1 H2. unfold enrich.
  rewrite own_get_set_other by congruence.
  destruct (truthy (get body "timestamp")); [ reflexivity | ].
  now rewrite own_get_set_other by congruence.
Qed.

Lemma enrich_wf (e : env) (body : record) :
  Json.wf_record body = true -> Json.wf_record (enrich e body) = true.
Proof.
  unfold Json.wf_record, enrich. intros H.
  apply set_wf; [ | reflexivity ].
  destruct (truthy (get body "timestamp")); [ exact H | ].
  now apply set_wf.
Qed.

(** *** The stored array as records *)

Lemma records_of_map (rs : list record) : records_of (map JObj rs) = Ok rs.
Proof.
  induction rs as [ | r rs IH ]; cbn [map records_of]; [ | rewrite IH ];
    reflexivity.
Qed.

Lemma records_of_ok (items : list value) (rs : list record) :
  records_of items = Ok rs -> items = map JObj rs.
Proof.
  revert rs. induction items as [ | [ | | | | | r ] items IH ]; intros rs;
    cbn [records_of]; try discriminate.
  - intros H. now injection H as <-.
  - destruct (records_of items) as [ rs' | | ]; cbn [andThen]; try discriminate.
    intros H. injection H as <-. cbn [map]. now rewrite (IH rs').
Qed.

(** *** Reading the store *)

Lemma read_existing_stored (d : disk) : read_existing d = (d, stored d).
Proof.
  unfold stored, read_existing, catch, bind, readFile, lift, ret.
  destruct (jsonFile d) as [ text | ]; [ | reflexivity ].
  destruct (JSON_parse text); reflexivity.
Qed.

Lemma stored_same_file (d1 d2 : disk) :
  jsonFile d1 = jsonFile d2 -> stored d1 = stored d2.
Proof.
  unfold stored, read_existing, catch, bind, readFile, lift, ret.
  intros ->. destruct (jsonFile d2) as [ text | ]; [ | reflexivity ].
  destruct (JSON_parse text); reflexivity.
Qed.

Lemma stored_absent (d : disk) : jsonFile d = None -> stored d = Ok (JArr []).
Proof.
  unfold stored, read_existing, catch, bind, readFile, lift, ret.
  now intros ->.
Qed.

Lemma stored_unparsable (d : disk) (text : string) :
  jsonFile d = Some text -> Json.parse text = Throw SyntaxError ->
  stored d = Ok (JArr []).
Proof.
  unfold stored, read_existing, catch, bind, readFile, lift, ret, JSON_parse.
  intros -> H. now rewrite H.
Qed.

Lemma stored_parsed (d : disk) (text : string) (v : value) :
  jsonFile d = Some text -> Json.parse text = Ok v -> stored d = Ok v.
Proof.
  unfold stored, read_existing, catch, bind, readFile, lift, ret, JSON_parse.
  intros -> H. now rewrite H.
Qed.

Lemma stored_wf (d : disk) (v : value) : stored d = Ok v -> Json.wf v = true.
Proof.
  unfold stored, read_existing, catch, bind, readFile, lift, ret, JSON_parse.
  destruct (jsonFile d) as [ text | ]; cbn [snd fst].
  - destruct (Json.parse text) as [ x | err | ] eqn:E; cbn [snd]; intros H;
      try discriminate; injection H as <-; [ | reflexivity ].
    now apply parse_result_wf in E.
  - intros H. now injection H as <-.
Qed.

Lemma stored_not_thrown (d : disk) (err : error) : stored d <> Throw err.
Proof.
  unfold stored, read_existing, catch, bind, readFile, lift, ret.
  destruct (jsonFile d) as [ text | ]; [ | discriminate ].
  destruct (JSON_parse text); discriminate.
Qed.

Lemma stored_stringify (d : disk) (v : value) :
  jsonFile d = Some (Json.stringify v) -> Json.wf v = true -> stored d = Ok v.
Proof.
  intros Hf Hwf. apply (stored_parsed d _ v Hf). now apply parse_stringify.
Qed.

(** *** The steps of a submission *)

Local Ltac run :=
  cbv beta iota
      delta [submit catch bind ret lift access_dir mkdir writeFile
             writeFile_csv saveAsCSV fst snd].

Lemma submit_invalid (e : env) (d : disk) (body : record) :
  truthy (get body "userType") = false ->
  submit e body d = (d, Ok (BadRequest "User type is required")).
Proof. intros H. run. now rewrite H. Qed.

(** A submission that is answered 200: what it read, and the disk it
    leaves. *)
Lemma submit_ok (e : env) (d d' : disk) (body : record)
      (rid : jsval) (total : nat) :
  submit e body d = (d', Ok (Submitted rid total)) ->
  truthy (get body "userType") = true
  /\ writable d = true
  /\ exists items rs csv,
      stored d = Ok (JArr items)
      /\ records_of (items ++ [JObj (enrich e body)]) = Ok rs
      /\ csvContent rs = Ok csv
      /\ d' = mkDisk true
                (Some (Json.stringify (JArr (items ++ [JObj (enrich e body)]))))
                (Some csv) true
      /\ rid = get (enrich e body) "id"
      /\ total = List.length items + 1.
Proof.
  run.
  destruct (truthy (get body "userType")); cbn [negb]; [ | discriminate ].
  assert (Hnonempty : forall items (r : record),
             Nat.eqb (List.length (items ++ [JObj r])) 0 = false)
    by (intros items r; rewrite length_app; cbn [List.length];
        apply Nat.eqb_neq; lia).
  destruct (responsesDir d) eqn:Hdir.
  - rewrite read_existing_stored.
    destruct (stored d) as [ [ | | | | items | ] | err | ] eqn:Hs;
      cbn [push]; try discriminate.
    rewrite Hdir.
    destruct (writable d) eqn:Hw; [ | discriminate ].
    rewrite Hnonempty.
    destruct (records_of (items ++ [JObj (enrich e body)])) as [ rs | err | ]
      eqn:Hrs; try discriminate.
    destruct (csvContent rs) as [ csv | err | ] eqn:Hcsv; try discriminate.
    cbn [writable responsesDir jsonFile csvFile].
    intros H. injection H as <- <- <-.
    split; [ reflexivity | ]. split; [ reflexivity | ].
    exists items, rs, csv. rewrite length_app. cbn [List.length].
    now repeat split.
  - destruct (writable d) eqn:Hw; [ | discriminate ].
    rewrite read_existing_stored.
    match goal with
    | |- context [ stored ?x ] => rewrite (stored_same_file x d eq_refl)
    end.
    destruct (stored d) as [ [ | | | | items | ] | err | ] eqn:Hs;
      cbn [push]; try discriminate.
    cbn [writable responsesDir]. rewrite Hnonempty.
    destruct (records_of (items ++ [JObj (enrich e body)])) as [ rs | err | ]
      eqn:Hrs; try discriminate.
    destruct (csvContent rs) as [ csv | err | ] eqn:Hcsv; try discriminate.
    cbn [writable responsesDir jsonFile csvFile].
    intros H. injection H as <- <- <-.
    split; [ reflexivity | ]. split; [ reflexivity | ].
    exists items, rs, csv. rewrite length_app. cbn [List.length].
    now repeat split.
Qed.

(** The converse: when every step goes through, the answer is 200. *)
Lemma submit_steps (e : env) (d : disk) (body : record)
      (items : list value) (rs : list record) (csv : string) :
  truthy (get body "userType") = true ->
  writable d = true ->
  stored d = Ok (JArr items) ->
  records_of (items ++ [JObj (enrich e body)]) = Ok rs ->
  csvContent rs = Ok csv ->
  submit e body d
  = (mkDisk true
       (Some (Json.stringify (JArr (items ++ [JObj (enrich e body)]))))
       (Some csv) true,
     Ok (Submitted (get (enrich e body) "id") (List.length items + 1))).
Proof.
  intros Hu Hw Hs Hrs Hcsv. run. rewrite Hu. cbn [negb].
  assert (Hnonempty :
            Nat.eqb (List.length (items ++ [JObj (enrich e body)])) 0 = false)
    by (rewrite length_app; cbn [List.length]; apply Nat.eqb_neq; lia).
  destruct (responsesDir d) eqn:Hdir.
  - rewrite read_existing_stored, Hs. cbn [push].
    rewrite Hdir, Hw, Hnonempty, Hrs, Hcsv.
    cbn [writable responsesDir jsonFile csvFile].
    now rewrite length_app.
  - rewrite Hw, read_existing_stored.
    match goal with
    | |- context [ stored ?x ] => rewrite (stored_same_file x d eq_refl)
    end.
    rewrite Hs.
    cbn [push writable responsesDir]. rewrite Hnonempty, Hrs, Hcsv.
    cbn [writable responsesDir jsonFile csvFile].
    now rewrite length_app.
Qed.

(** A store that is not an array: the [push] throws, nothing is written. *)
Lemma submit_not_array (e : env) (d : disk) (body : record) (v : value) :
  truthy (get body "userType") = true ->
  responsesDir d = true ->
  stored d = Ok v ->
  (forall items, v <> JArr items) ->
  submit e body d
  = (d, Ok (SaveFailed "Failed to save survey response" TypeError)).
Proof.
  intros Hu Hdir Hs Hv. run. rewrite Hu. cbn [negb]. rewrite Hdir.
  rewrite read_existing_stored, Hs.
  destruct v as [ | | | | items | ]; try reflexivity.
  now destruct (Hv items).
Qed.

End ServerFacts.

(** ** The query handlers *)

Module QueryFacts.

Import Js JsFacts Server JsonFacts ServerFacts.
Local Open Scope list_scope.

Lemma mapM_objects {B : Type} (f : value -> result B) (g : record -> B)
      (rs : list record) :
  (forall r, f (JObj r) = Ok (g r)) ->
  mapM f (map JObj rs) = Ok (map g rs).
Proof.
  intros H. induction rs as [ | r rs IH ]; cbn [map mapM]; [ reflexivity | ].
  rewrite H. cbn [andThen]. rewrite IH. reflexivity.
Qed.

Lemma getAllResponses_parsed (d : disk) (text : string) (items : list value) :
  jsonFile d = Some text -> Json.parse text = Ok (JArr items) ->
  getAllResponses d
  = (d, Ok (Found (mkAll (Data (JNum (Z.of_nat (List.length items))))
                     (JArr items)))).
Proof.
  intros Hf Hp.
  unfold getAllResponses, catch, bind, readFile, lift, ret, JSON_parse.
  now rewrite Hf, Hp.
Qed.

Lemma getAllResponses_stored (d : disk) (items : list value) :
  jsonFile d = Some (Json.stringify (JArr items)) ->
  Json.wf (JArr items) = true ->
  getAllResponses d
  = (d, Ok (Found (mkAll (Data (JNum (Z.of_nat (List.length items))))
                     (JArr items)))).
Proof.
  intros Hf Hwf. apply (getAllResponses_parsed d _ items Hf).
  now apply parse_stringify.
Qed.

Section Stats.

Variable toDateString : jsval -> string.

Lemma get_userType (r : record) (name : string) :
  match get r "userType" with
  | Data (JStr s) => String.eqb s name
  | _ => false
  end = userType_is name r.
Proof.
  unfold userType_is, get. destruct (own_get r "userType") as [ v | ]; reflexivity.
Qed.

Lemma filter_map_id {A : Type} (g : A -> bool) (l : list A) :
  List.length (filter (fun b => b) (map g l)) = List.length (filter g l).
Proof.
  induction l as [ | a l IH ]; [ reflexivity | ].
  cbn [map filter]. destruct (g a); cbn [List.length]; now rewrite IH.
Qed.

Lemma count_userType_records (name : string) (rs : list record) :
  count_userType name (map JObj rs)
  = Ok (List.length (filter (userType_is name) rs)).
Proof.
  unfold count_userType.
  rewrite (mapM_objects _ (userType_is name)).
  - cbn [andThen]. now rewrite filter_map_id.
  - intros r. cbn [member andThen]. now rewrite get_userType.
Qed.

Lemma mapM_objects_on {B : Type} (f : value -> result B) (g : record -> B)
      (rs : list record) :
  Forall (fun r => f (JObj r) = Ok (g r)) rs ->
  mapM f (map JObj rs) = Ok (map g rs).
Proof.
  induction 1 as [ | r rs Hr _ IH ]; cbn [map mapM]; [ reflexivity | ].
  rewrite Hr. cbn [andThen]. rewrite IH. reflexivity.
Qed.

Lemma dated_date_string (r : record) :
  dated r = true ->
  date_string toDateString (get r "timestamp") = Ok (day_of toDateString r).
Proof.
  unfold dated, date_string, day_of.
  destruct (to_primitive (get r "timestamp")) as [ [] | err | ];
    [ reflexivity | discriminate | discriminate ].
Qed.

Lemma getResponsesByDate_records (rs : list record) :
  forallb dated rs = true ->
  getResponsesByDate toDateString (map JObj rs)
  = Ok (fold_left count_date (map (day_of toDateString) rs) []).
Proof.
  intros H. unfold getResponsesByDate.
  rewrite (mapM_objects_on _ (day_of toDateString)); [ reflexivity | ].
  apply Forall_forall. intros r Hr. cbn [member andThen].
  apply dated_date_string. rewrite forallb_forall in H. now apply H.
Qed.

Lemma nth_error_last {A : Type} (l : list A) (a : A) :
  nth_error (l ++ [a]) (List.length (l ++ [a]) - 1) = Some a.
Proof.
  rewrite length_app. cbn [List.length].
  replace (List.length l + 1 - 1) with (List.length l) by lia.
  rewrite nth_error_app2 by lia. now rewrite Nat.sub_diag.
Qed.

Lemma compute_stats_records (rs : list record) :
  forallb dated rs = true ->
  compute_stats toDateString (JArr (map JObj rs))
  = Ok (mkStats (List.length rs)
          (List.length (filter (userType_is "stakeholder") rs))
          (List.length (filter (userType_is "participant") rs))
          (fold_left count_date (map (day_of toDateString) rs) [])
          (latest_of rs)).
Proof.
  intros Hd. unfold compute_stats.
  rewrite !count_userType_records, (getResponsesByDate_records rs Hd).
  cbn [andThen].
  destruct rs as [ | r0 rs0 _ ] using rev_ind; [ reflexivity | ].
  replace (map JObj (rs0 ++ [r0])) with (map JObj rs0 ++ [JObj r0])
    by (now rewrite map_app).
  rewrite nth_error_last.
  replace (Nat.ltb 0 (List.length (map JObj rs0 ++ [JObj r0]))) with true
    by (symmetry; apply Nat.ltb_lt; rewrite length_app; cbn; lia).
  cbn [member andThen]. unfold latest_of.
  rewrite (map_app (fun r => get r "timestamp")). cbn [map]. rewrite last_last.
  rewrite !length_app, length_map. reflexivity.
Qed.

Lemma getStats_parsed (d : disk) (text : string) (rs : list record) :
  jsonFile d = Some text -> Json.parse text = Ok (JArr (map JObj rs)) ->
  forallb dated rs = true ->
  getStats toDateString d
  = (d, Ok (Found (mkStats (List.length rs)
                     (List.length (filter (userType_is "stakeholder") rs))
                     (List.length (filter (userType_is "participant") rs))
                     (fold_left count_date (map (day_of toDateString) rs) [])
                     (latest_of rs)))).
Proof.
  intros Hf Hp Hd.
  unfold getStats, catch, bind, readFile, lift, ret, JSON_parse.
  now rewrite Hf, Hp, (compute_stats_records rs Hd).
Qed.

Lemma getStats_stored (d : disk) (rs : list record) :
  jsonFile d = Some (Json.stringify (JArr (map JObj rs))) ->
  Json.wf (JArr (map JObj rs)) = true ->
  forallb dated rs = true ->
  getStats toDateString d
  = (d, Ok (Found (mkStats (List.length rs)
                     (List.length (filter (userType_is "stakeholder") rs))
                     (List.length (filter (userType_is "participant") rs))
                     (fold_left count_date (map (day_of toDateString) rs) [])
                     (latest_of rs)))).
Proof.
  intros Hf Hwf Hd. apply (getStats_parsed d _ rs Hf); [ | exact Hd ].
  now apply parse_stringify.
Qed.

(** *** Counting by day *)


Lemma date_set_keys (dc : list (string * Z)) (day : string) (n : Z) :
  NoDup (map fst dc) -> NoDup (map fst (date_set dc day n)).
Proof.
  assert (Hin : forall k dc, In k (map fst (date_set dc day n)) ->
                            k = day \/ In k (map fst dc)).
  { intros k dc0. induction dc0 as [ | [k0 m] dc0 IH ]; cbn [date_set map fst In].
    - intuition.
    - destruct (String.eqb k0 day); cbn [map fst In]; intuition. }
  induction dc as [ | [k m] dc IH ]; cbn [date_set map fst]; intros H.
  - constructor; [ intros [] | constructor ].
  - inversion H as [ | ? ? Hk Hd ]. subst.
    destruct (String.eqb k day) eqn:E; cbn [map fst].
    + exact H.
    + constructor; [ | now apply IH ].
      intros Hc. apply Hin in Hc as [ -> | Hc ]; [ | contradiction ].
      now rewrite String.eqb_refl in E.
Qed.


Lemma count_dates_keys (days : list string) (dc : list (string * Z)) :
  NoDup (map fst dc) -> NoDup (map fst (fold_left count_date days dc)).
Proof.
  revert dc. induction days as [ | x days IH ]; intros dc H; [ exact H | ].
  cbn [fold_left]. apply IH. now apply date_set_keys.
Qed.

End Stats.

End QueryFacts.

(** ** The CSV projection *)

Module CsvFacts.

Import Js JsFacts Server.
Local Open Scope list_scope.

(** *** The header row: the sorted union of the keys *)

Lemma existsb_eqb_In (k : string) (l : list string) :
  existsb (String.eqb k) l = true <-> In k l.
Proof.
  rewrite existsb_exists. split.
  - intros (x & Hx & E). apply String.eqb_eq in E. now subst.
  - intros H. exists k. split; [ exact H | apply String.eqb_refl ].
Qed.

Lemma add_key_In (acc : list string) (key k : string) :
  In k (add_key acc key) <-> In k acc \/ k = key.
Proof.
  unfold add_key. destruct (existsb (String.eqb key) acc) eqn:E.
  - apply existsb_eqb_In in E. split; [ auto | ].
    intros [ H | -> ]; assumption.
  - rewrite in_app_iff. cbn [In]. intuition.
Qed.

Lemma add_key_NoDup (acc : list string) (key : string) :
  NoDup acc -> NoDup (add_key acc key).
Proof.
  intros H. unfold add_key. destruct (existsb (String.eqb key) acc) eqn:E;
    [ exact H | ].
  apply NoDup_app; [ exact H | repeat constructor; intros [] | ].
  intros x Hx [ <- | [] ].
  apply existsb_eqb_In in Hx. congruence.
Qed.

Lemma add_keys_In (ks acc : list string) (k : string) :
  In k (fold_left add_key ks acc) <-> In k acc \/ In k ks.
Proof.
  revert acc. induction ks as [ | key ks IH ]; intros acc; cbn [fold_left In].
  - intuition.
  - rewrite IH, add_key_In. intuition.
Qed.

Lemma add_keys_NoDup (ks acc : list string) :
  NoDup acc -> NoDup (fold_left add_key ks acc).
Proof.
  revert acc. induction ks as [ | key ks IH ]; intros acc H; [ exact H | ].
  cbn [fold_left]. now apply IH, add_key_NoDup.
Qed.

Lemma all_keys_from_In (rs : list record) (acc : list string) (k : string) :
  In k (fold_left (fun allKeys response => fold_left add_key (keys response) allKeys)
          rs acc)
  <-> In k acc \/ exists r, In r rs /\ In k (keys r).
Proof.
  revert acc. induction rs as [ | r rs IH ]; intros acc; cbn [fold_left].
  - split; [ auto | ]. intros [ H | (r & [] & _) ]. exact H.
  - rewrite IH, add_keys_In. split.
    + intros [ [ H | H ] | (r' & Hr & Hk) ]; [ now left | right | right ].
      * exists r. split; [ now left | exact H ].
      * exists r'. split; [ now right | exact Hk ].
    + intros [ H | (r' & [ <- | Hr ] & Hk) ]; [ now left; left | now left; right | ].
      right. now exists r'.
Qed.

Lemma all_keys_from_NoDup (rs : list record) (acc : list string) :
  NoDup acc ->
  NoDup (fold_left (fun allKeys response => fold_left add_key (keys response) allKeys)
           rs acc).
Proof.
  revert acc. induction rs as [ | r rs IH ]; intros acc H; [ exact H | ].
  cbn [fold_left]. now apply IH, add_keys_NoDup.
Qed.

Lemma insert_perm (x : string) (l : list string) : Permutation (insert x l) (x :: l).
Proof.
  induction l as [ | y l IH ]; cbn [insert]; [ reflexivity | ].
  destruct (String.leb x y); [ reflexivity | ].
  rewrite IH. apply perm_swap.
Qed.

Lemma sort_perm (l : list string) : Permutation (sort l) l.
Proof.
  induction l as [ | x l IH ]; [ reflexivity | ].
  cbn [sort fold_right]. fold (sort l). rewrite insert_perm. now constructor.
Qed.

Lemma insert_sorted (x : string) (l : list string) :
  Sorted key_le l -> Sorted key_le (insert x l).
Proof.
  induction 1 as [ | y l Hl IH Hhd ]; cbn [insert].
  - repeat constructor.
  - destruct (String.leb x y) eqn:E.
    + constructor; [ now constructor | now constructor ].
    + constructor; [ exact IH | ].
      assert (Hyx : key_le y x)
        by (destruct (String.leb_total x y) as [ H | H ]; [ congruence | exact H ]).
      destruct l as [ | z l ]; cbn [insert].
      * now constructor.
      * destruct (String.leb x z); constructor; [ exact Hyx | ].
        now inversion Hhd.
Qed.

Lemma sort_sorted (l : list string) : Sorted key_le (sort l).
Proof.
  induction l as [ | x l IH ]; [ constructor | ].
  cbn [sort fold_right]. fold (sort l). now apply insert_sorted.
Qed.

Lemma le_neq_lt (a b : string) : key_le a b -> a <> b -> key_lt a b.
Proof.
  unfold key_le, key_lt, String.leb, String.ltb. intros H Hne.
  destruct (String.compare a b) eqn:E; try congruence.
  now apply String.compare_eq_iff in E.
Qed.

Lemma sorted_strict (l : list string) : Sorted key_le l -> NoDup l -> Sorted key_lt l.
Proof.
  induction 1 as [ | a l Hl IH Hhd ]; intros Hnd; [ constructor | ].
  inversion Hnd as [ | ? ? Ha Hnd' ]. subst.
  constructor; [ now apply IH | ].
  destruct Hhd as [ | b l Hab ]; constructor.
  apply le_neq_lt; [ exact Hab | ].
  intros ->. apply Ha. now left.
Qed.

(** The header row lists every key of every record once, in ascending
    order. *)
Theorem headers_sorted_union (rs : list record) :
  Sorted key_lt (headers_of rs)
  /\ NoDup (headers_of rs)
  /\ forall k, In k (headers_of rs) <-> exists r, In r rs /\ In k (keys r).
Proof.
  unfold headers_of.
  assert (Hnd : NoDup (sort (all_keys rs))).
  { apply (Permutation_NoDup (Permutation_sym (sort_perm _))).
    apply all_keys_from_NoDup. constructor. }
  repeat split.
  - apply sorted_strict; [ apply sort_sorted | exact Hnd ].
  - exact Hnd.
  - intros H. apply (Permutation_in _ (sort_perm _)) in H.
    apply all_keys_from_In in H as [ [] | H ]. exact H.
  - intros H. apply (Permutation_in _ (Permutation_sym (sort_perm _))).
    apply all_keys_from_In. now right.
Qed.

(** *** Rows *)

Lemma mapM_Forall2 {A B : Type} (f : A -> result B) (l : list A) (ys : list B) :
  mapM f l = Ok ys -> Forall2 (fun x y => f x = Ok y) l ys.
Proof.
  revert ys. induction l as [ | x l IH ]; intros ys; cbn [mapM].
  - intros H. inversion H. constructor.
  - destruct (f x) as [ y | err | ] eqn:E; cbn [andThen]; try discriminate.
    destruct (mapM f l) as [ ys' | err | ]; cbn [andThen]; try discriminate.
    intros H. injection H as <-. constructor; [ exact E | now apply IH ].
Qed.

(** The CSV text is the header row followed by one row per record, in the
    order of the records; each row has one field per header. *)
Theorem csvContent_rows (rs : list record) (text : string) :
  csvContent rs = Ok text ->
  exists rows,
    text = join (String newline EmptyString)
             (csvHeader (headers_of rs) :: rows)
    /\ Forall2 (fun r row =>
                  exists fields,
                    row = join "," fields
                    /\ Forall2 (fun header f => field r header = Ok f)
                         (headers_of rs) fields)
         rs rows.
Proof.
  unfold csvContent.
  destruct (mapM (csvRow (headers_of rs)) rs) as [ rows | err | ] eqn:E;
    cbn [andThen]; try discriminate.
  intros H. injection H as <-. exists rows. split; [ reflexivity | ].
  apply mapM_Forall2 in E.
  eapply Forall2_impl; [ | exact E ].
  intros r row Hrow. unfold csvRow in Hrow.
  destruct (mapM (field r) (headers_of rs)) as [ fields | err | ] eqn:Ef;
    cbn [andThen] in Hrow; try discriminate.
  injection Hrow as <-. exists fields. split; [ reflexivity | ].
  now apply mapM_Forall2.
Qed.

(** A key that the record does not have, and that [Object.prototype] does
    not define, gives the empty quoted field. *)
Lemma field_absent (r : record) (k : string) :
  own_get r k = None -> Object_prototype k = None -> field r k = Ok (q ++ q)%string.
Proof.
  intros H1 H2. unfold field. now rewrite (get_absent r k H1 H2).
Qed.

(** A truthy value is stringified, its quotes doubled, and quoted. *)
Lemma field_truthy (r : record) (k : string) (v : value) (s : string) :
  own_get r k = Some v -> truthy_value v = true -> to_string v = Ok s ->
  field r k = Ok (q ++ double_quotes s ++ q)%string.
Proof.
  intros H1 H2 H3. unfold field. rewrite (get_own r k v H1).
  cbn [truthy]. rewrite H2. cbn [String_]. now rewrite H3.
Qed.

(** A falsy value ([0], [false], [null], the empty string) gives the empty
    quoted field. *)
Lemma field_falsy (r : record) (k : string) (v : value) :
  own_get r k = Some v -> truthy_value v = false -> field r k = Ok (q ++ q)%string.
Proof.
  intros H1 H2. unfold field. rewrite (get_own r k v H1).
  cbn [truthy]. now rewrite H2.
Qed.

(** With no record nothing is written. *)
Lemma saveAsCSV_empty (d : disk) : saveAsCSV [] d = (d, Ok tt).
Proof. reflexivity. Qed.

(** *** Quoted fields *)

Lemma unquote_body_doubled (s : string) :
  Csv.unquote_body false (double_quotes s ++ q)%string = Some s.
Proof.
  induction s as [ | c s IH ]; [ reflexivity | ].
  cbn [double_quotes]. destruct (Ascii.eqb c dquote) eqn:E.
  - apply Ascii.eqb_eq in E. subst c.
    cbn [String.append Csv.unquote_body].
    change (Ascii.eqb dquote dquote) with true. cbv iota.
    now rewrite IH.
  - cbn [String.append Csv.unquote_body]. rewrite E, IH. reflexivity.
Qed.

(** A data field reads back as the string it was made from. *)
Lemma unquote_data_field (s : string) :
  Csv.unquote (q ++ double_quotes s ++ q)%string = Some s.
Proof. apply unquote_body_doubled. Qed.

Lemma unquote_body_count (h : string) :
  forall (pending : bool) (h' : string),
    Csv.unquote_body pending (h ++ q)%string = Some h' ->
    Csv.count_quotes h + (if pending then 1 else 0) = 2 * Csv.count_quotes h'.
Proof.
  induction h as [ | c h IH ]; intros pending h'.
  - destruct pending; cbn; [ discriminate | ].
    intros H. inversion H. reflexivity.
  - cbn [String.append Csv.unquote_body Csv.count_quotes].
    destruct pending; destruct (Ascii.eqb c dquote) eqn:E; try discriminate.
    + destruct (Csv.unquote_body false (h ++ q)%string) as [ h1 | ] eqn:E1;
        [ | discriminate ].
      cbn [option_map]. intros H. injection H as <-.
      specialize (IH false h1 E1). cbv iota in IH. cbn [Csv.count_quotes].
      change (Ascii.eqb dquote dquote) with true. cbv iota. lia.
    + intros H. specialize (IH true h' H). cbv iota in IH. lia.
    + destruct (Csv.unquote_body false (h ++ q)%string) as [ h1 | ] eqn:E1;
        [ | discriminate ].
      cbn [option_map]. intros H. injection H as <-.
      specialize (IH false h1 E1). cbv iota in IH. cbn [Csv.count_quotes]. rewrite E. lia.
Qed.

Lemma length_double_quotes (s : string) :
  String.length (double_quotes s) = String.length s + Csv.count_quotes s.
Proof.
  induction s as [ | c s IH ]; [ reflexivity | ].
  cbn [double_quotes Csv.count_quotes].
  destruct (Ascii.eqb c dquote); cbn [String.length]; lia.
Qed.



(** A header field that reads as a quoted field is the escaped form of
    what it reads as. *)
Lemma unquote_body_escaped (h : string) :
  forall h',
    (Csv.unquote_body false (h ++ q)%string = Some h' -> h = double_quotes h')
    /\ (Csv.unquote_body true (h ++ q)%string = Some h' ->
        exists h1 h1',
          h = String dquote h1 /\ h' = String dquote h1'
          /\ h1 = double_quotes h1').
Proof.
  induction h as [ | c h IH ]; intros h'.
  - cbn. split.
    + intros H. injection H as <-. reflexivity.
    + discriminate.
  - cbn [String.append Csv.unquote_body]. split.
    + destruct (Ascii.eqb c dquote) eqn:E.
      * apply Ascii.eqb_eq in E. subst c. intros H.
        destruct (proj2 (IH h') H) as (h1 & h1' & -> & -> & ->).
        cbn [double_quotes]. now rewrite Ascii.eqb_refl.
      * destruct (Csv.unquote_body false (h ++ q)%string) as [ h0 | ] eqn:E0;
          cbn [option_map]; [ | discriminate ].
        intros H. injection H as <-.
        cbn [double_quotes]. rewrite E. f_equal. now apply (IH h0).
    + destruct (Ascii.eqb c dquote) eqn:E; [ | discriminate ].
      apply Ascii.eqb_eq in E. subst c.
      destruct (Csv.unquote_body false (h ++ q)%string) as [ h0 | ] eqn:E0;
        cbn [option_map]; [ | discriminate ].
      intros H. injection H as <-.
      exists h, h0. repeat split. now apply (IH h0).
Qed.

Lemma header_field_well_formed (h : string) :
  Csv.well_formed (header_field h) = true <-> exists h', h = double_quotes h'.
Proof.
  unfold Csv.well_formed. split.
  - destruct (Csv.unquote (header_field h)) as [ h' | ] eqn:E; [ | discriminate ].
    intros _. exists h'. now apply (unquote_body_escaped h h').
  - intros (h' & ->). unfold header_field. now rewrite unquote_data_field.
Qed.

(** *** What a computed CSV text shows about the records *)

Lemma falsy_converts (x : jsval) : truthy x = false -> to_primitive x = Ok tt.
Proof.
  unfold to_primitive.
  destruct x as [ | [ | [ | ] | n | s | | ] | | ]; cbn; try discriminate;
    reflexivity.
Qed.

Lemma field_converts (r : record) (h f : string) :
  field r h = Ok f -> to_primitive (get r h) = Ok tt.
Proof.
  unfold field. destruct (truthy (get r h)) eqn:T.
  - unfold to_primitive.
    destruct (String_ (get r h)) as [ s | err | ]; cbn [andThen];
      [ reflexivity | discriminate | discriminate ].
  - intros _. now apply falsy_converts.
Qed.

Lemma Forall2_In_l {A B : Type} (R : A -> B -> Prop) (l : list A) (l' : list B)
      (x : A) :
  Forall2 R l l' -> In x l -> exists y, R x y.
Proof.
  induction 1 as [ | a b l l' Hab _ IH ]; intros Hin; [ destruct Hin | ].
  destruct Hin as [ <- | Hin ]; [ now exists b | now apply IH ].
Qed.

Lemma csvContent_dated (rs : list record) (text : string) :
  csvContent rs = Ok text -> In "timestamp" (headers_of rs) ->
  forallb dated rs = true.
Proof.
  intros Hc Hh. apply csvContent_rows in Hc. destruct Hc as (rows & _ & Hrows).
  apply forallb_forall. intros r Hr.
  destruct (Forall2_In_l _ _ _ r Hrows Hr) as (row & fields & _ & Hf).
  destruct (Forall2_In_l _ _ _ "timestamp" Hf Hh) as (f & Hfield).
  unfold dated. now rewrite (field_converts r "timestamp" f Hfield).
Qed.

End CsvFacts.

(** ** The claims *)

Module Claims.

Import Js JsFacts Server JsonFacts ServerFacts QueryFacts CsvFacts Examples.
Local Open Scope list_scope.

Lemma wf_items_app (items : list value) (r : record) :
  Json.wf (JArr items) = true -> Json.wf_record r = true ->
  Json.wf (JArr (items ++ [JObj r])) = true.
Proof.
  unfold Json.wf_record. rewrite !wf_array. intros Hi Hr.
  rewrite forallb_app, Hi. cbn [forallb]. now rewrite Hr.
Qed.

Lemma own_get_keys (r : record) (k : string) (v : value) :
  own_get r k = Some v -> In k (keys r).
Proof.
  unfold keys. induction r as [ | [k' v'] r IH ]; cbn [own_get map fst In];
    [ discriminate | ].
  destruct (String.eqb k' k) eqn:E; [ left; now apply String.eqb_eq | auto ].
Qed.

Lemma enrich_has_timestamp (e : env) (body : record) :
  In "timestamp" (keys (enrich e body)).
Proof.
  destruct (truthy (get body "timestamp")) eqn:T.
  - unfold get in T.
    destruct (own_get body "timestamp") as [ t | ] eqn:Et; [ | discriminate ].
    cbn [truthy] in T.
    exact (own_get_keys _ _ _ (enrich_timestamp_kept e body t Et T)).
  - exact (own_get_keys _ _ _ (enrich_timestamp_set e body T)).
Qed.

Lemma wf_records (rs : list record) :
  Forall (fun r => Json.wf_record r = true) rs ->
  Json.wf (JArr (map JObj rs)) = true.
Proof.
  rewrite wf_array.
  induction 1 as [ | r rs Hr _ IH ]; [ reflexivity | ].
  cbn [map forallb]. unfold Json.wf_record in Hr. now rewrite Hr, IH.
Qed.

(** One successful submission appends one record to what the store held. *)
Lemma submit_appends (e : env) (d d' : disk) (body : record)
      (rid : jsval) (total : nat) :
  Json.wf_record body = true ->
  submit e body d = (d', Ok (Submitted rid total)) ->
  exists items rs,
    stored d = Ok (JArr items)
    /\ items ++ [JObj (enrich e body)] = map JObj rs
    /\ jsonFile d' = Some (Json.stringify (JArr (items ++ [JObj (enrich e body)])))
    /\ Json.wf (JArr (items ++ [JObj (enrich e body)])) = true
    /\ stored d' = Ok (JArr (items ++ [JObj (enrich e body)]))
    /\ rid = Data (new_id e) /\ total = List.length items + 1
    /\ forallb dated rs = true.
Proof.
  intros Hwf Hs.
  apply submit_ok in Hs
    as (_ & _ & items & rs & csv & Hr & Hrs & Hcsv & -> & Hid & Ht).
  assert (Hw : Json.wf (JArr (items ++ [JObj (enrich e body)])) = true).
  { apply wf_items_app; [ | now apply enrich_wf ]. now apply (stored_wf d). }
  apply records_of_ok in Hrs.
  exists items, rs. repeat split; try assumption.
  - now apply stored_stringify.
  - rewrite Hid. apply get_own, enrich_id.
  - apply (csvContent_dated rs csv Hcsv).
    apply headers_sorted_union. exists (enrich e body). split.
    + assert (Hin : In (JObj (enrich e body)) (map JObj rs))
        by (rewrite <- Hrs; apply in_or_app; right; now left).
      apply in_map_iff in Hin. destruct Hin as (r & Hr' & Hin).
      injection Hr' as <-. exact Hin.
    + apply enrich_has_timestamp.
Qed.

Lemma submit_all_cons (e : env) (body : record) (rest : list (env * record))
      (d d' : disk) (responses : list submit_response) :
  submit_all ((e, body) :: rest) d = (d', Ok responses) ->
  exists d1 response responses',
    submit e body d = (d1, Ok response)
    /\ submit_all rest d1 = (d', Ok responses')
    /\ responses = response :: responses'.
Proof.
  cbn [submit_all]. unfold bind at 1.
  destruct (submit e body d) as [d1 [ response | err | ]]; try discriminate.
  unfold bind at 1.
  destruct (submit_all rest d1) as [d2 [ responses' | err | ]] eqn:Hrest;
    try discriminate.
  unfold ret. intros H. injection H as <- <-.
  now exists d1, response, responses'.
Qed.

Lemma submit_all_chain (requests : list (env * record)) :
  forall d0 d' responses items0,
    stored d0 = Ok (JArr items0) ->
    Forall (fun request => Json.wf_record (snd request) = true) requests ->
    submit_all requests d0 = (d', Ok responses) ->
    Forall succeeded responses ->
    stored d' = Ok (JArr (items0 ++ appended requests))
    /\ List.length responses = List.length requests
    /\ (forall k response,
          nth_error responses k = Some response ->
          exists id, response = Submitted id (List.length items0 + S k))
    /\ (requests <> [] ->
        jsonFile d' = Some (Json.stringify (JArr (items0 ++ appended requests)))
        /\ exists rs, items0 ++ appended requests = map JObj rs
                      /\ forallb dated rs = true).
Proof.
  induction requests as [ | [e body] rest IH ];
    intros d0 d' responses items0 Hread Hwf Hrun Hok.
  - cbn in Hrun. injection Hrun as <- <-. cbn [appended map].
    rewrite app_nil_r. repeat split; try assumption.
    + intros [ | k ] response H; discriminate H.
    + congruence.
    + congruence.
  - apply submit_all_cons in Hrun
      as (d1 & response1 & responses' & Hs & Hrest & ->).
    inversion Hok as [ | ? ? Hok1 Hok' ]. subst.
    inversion Hwf as [ | ? ? Hwf1 Hwf' ]. subst. cbn [snd] in Hwf1.
    destruct response1 as [ rid total | | ]; try contradiction.
    destruct (submit_appends e d0 d1 body rid total Hwf1 Hs)
      as (items & rs & Hr0 & Hrs & Hj & Hw & Hr1 & Hid & Ht & Hdated).
    rewrite Hread in Hr0. injection Hr0 as <-.
    destruct (IH d1 d' responses' _ Hr1 Hwf' Hrest Hok')
      as (Hfinal & Hlen & Htot & Hfile).
    cbn [appended map fst snd] in *.
    rewrite <- app_assoc in Hfinal.
    repeat split.
    + exact Hfinal.
    + cbn [List.length]. now rewrite Hlen.
    + intros [ | k ] response Hk; cbn [nth_error] in Hk.
      * injection Hk as <-. exists rid. f_equal. lia.
      * destruct (Htot k response Hk) as (id & ->). exists id. f_equal.
        rewrite length_app. cbn [List.length]. lia.
    + destruct rest as [ | request rest' ].
      * cbn in Hrest. injection Hrest as <- _. cbn [map]. exact Hj.
      * destruct Hfile as [Hf _]; [ discriminate | ].
        rewrite <- app_assoc in Hf. exact Hf.
    + destruct rest as [ | request rest' ].
      * exists rs. split; [ exact Hrs | exact Hdated ].
      * destruct Hfile as [_ (rs' & Hrs' & Hdated')]; [ discriminate | ].
        exists rs'. rewrite <- app_assoc in Hrs'. now split.
Qed.

(** C1.  After N successful submissions in a row on a store that was absent,
    the k-th of them reports k responses (the last one N), the list of all
    responses has count N and holds the N records in the order they were
    submitted, and the statistics report N; and on any store, a successful
    submission persists the list it read with its record added at the end. *)
Theorem submissions_accumulate :
  forall (toDateString : jsval -> string) (requests : list (env * record))
         (d0 d' : disk) (responses : list submit_response),
    jsonFile d0 = None ->
    requests <> [] ->
    Forall (fun request => Json.wf_record (snd request) = true) requests ->
    submit_all requests d0 = (d', Ok responses) ->
    Forall succeeded responses ->
    List.length responses = List.length requests
    /\ (forall k response,
          nth_error responses k = Some response ->
          exists id, response = Submitted id (S k))
    /\ getAllResponses d'
       = (d', Ok (Found (mkAll (Data (JNum (Z.of_nat (List.length requests))))
                           (JArr (appended requests)))))
    /\ (exists s, getStats toDateString d' = (d', Ok (Found s))
                  /\ totalResponses s = List.length requests)
    /\ (forall e d d1 body id n,
          Json.wf_record body = true ->
          submit e body d = (d1, Ok (Submitted id n)) ->
          exists items,
            stored d = Ok (JArr items)
            /\ n = List.length items + 1
            /\ getAllResponses d1
               = (d1, Ok (Found
                            (mkAll (Data (JNum (Z.of_nat (List.length items + 1))))
                               (JArr (items ++ [JObj (enrich e body)])))))).
Proof.
  intros tds requests d0 d' responses Habsent Hne Hwf Hrun Hok.
  destruct (submit_all_chain requests d0 d' responses []
              (stored_absent d0 Habsent) Hwf Hrun Hok)
    as (Hfinal & Hlen & Htot & Hfile).
  destruct (Hfile Hne) as (Hf & rs & Hrs & Hdated).
  rewrite app_nil_l in Hfinal, Hf, Hrs.
  assert (Hw : Json.wf (JArr (appended requests)) = true)
    by now apply (stored_wf d').
  repeat split.
  - exact Hlen.
  - exact Htot.
  - rewrite (getAllResponses_stored d' _ Hf Hw).
    unfold appended. now rewrite length_map.
  - assert (Hn : List.length rs = List.length requests).
    { rewrite <- (length_map JObj rs), <- Hrs. unfold appended.
      now rewrite length_map. }
    rewrite Hrs in Hf, Hw.
    rewrite (getStats_stored tds d' rs Hf Hw Hdated).
    eexists. split; [ reflexivity | exact Hn ].
  - intros e d d1 body id n Hb Hs.
    destruct (submit_appends e d d1 body id n Hb Hs)
      as (items & rs1 & Hr0 & _ & Hj & Hw1 & _ & _ & Ht & _).
    exists items. repeat split; try assumption.
    rewrite (getAllResponses_stored d1 _ Hj Hw1).
    rewrite length_app. reflexivity.
Qed.

(** C2.  When [userType] is absent from the payload, or is the empty
    string, the submission is answered 400 with the error "User type is
    required", and the disk (JSON store and CSV artifact) is left as it was. *)
Theorem invalid_submission_rejected :
  forall (e : env) (d : disk) (body : record),
    own_get body "userType" = None \/ own_get body "userType" = Some (JStr "") ->
    submit e body d = (d, Ok (BadRequest "User type is required")).
Proof.
  intros e d body H. apply submit_invalid. unfold get.
  destruct H as [ -> | -> ]; reflexivity.
Qed.

(** C3 (the code departs from it).  Two submissions on an empty disk, the
    first with a key named "constructor", the second without it: the
    second record has no such key, yet its field in that column is the text
    of the inherited [Object] function, not the empty field. *)
Theorem inherited_property_fills_missing_key :
  own_get (enrich env2 plain) "constructor" = None
  /\ field (enrich env2 plain) "constructor"
     = Ok (q ++ "function Object() { [native code] }" ++ q)%string
  /\ csvFile (fst (submit_all [(env1, with_constructor); (env2, plain)] empty_disk))
     = Some (join (String newline EmptyString)
          [csvHeader ["constructor"; "id"; "timestamp"; "userType"];
           csvHeader ["x"; "1793556732125_k3j9x0q2a";
                      "2026-11-01T18:12:12.123Z"; "participant"];
           csvHeader ["function Object() { [native code] }";
                      "1793556792001_p0o9i8u7y";
                      "2026-11-01T18:13:12.000Z"; "participant"]]).
Proof. repeat split; vm_compute; reflexivity. Qed.

(** C4 (the code departs from it).  A record whose rating is the number 0:
    [String(0)] is "0", but the field written for it is the empty quoted
    field, because 0 is falsy. *)
Theorem zero_renders_as_empty_field :
  own_get (enrich env1 zero_rating) "rating" = Some (JNum 0)
  /\ to_string (JNum 0) = Ok "0"
  /\ field (enrich env1 zero_rating) "rating" = Ok (q ++ q)%string
  /\ csvFile (fst (submit env1 zero_rating empty_disk))
     = Some (join (String newline EmptyString)
          [csvHeader ["id"; "rating"; "timestamp"; "userType"];
           csvHeader ["1793556732125_k3j9x0q2a"; "";
                      "2026-11-01T18:12:12.123Z"; "participant"]]).
Proof. repeat split; vm_compute; reflexivity. Qed.

(** C6 fails as stated: the file holds JSON text of an object, which is
    not a collection of responses, and the submission is answered 500. *)
Lemma object_store_submission_fails :
  Json.parse "{}" = Ok (JObj [])
  /\ truthy (get participant "userType") = true
  /\ submit env1 participant object_disk
     = (object_disk, Ok (SaveFailed "Failed to save survey response" TypeError)).
Proof. repeat split; vm_compute; reflexivity. Qed.

(** C6, as amended.  When the JSON file exists but its content is not JSON
    text, the store is read as empty: the submission is answered 200 with
    one response in total, and the file then holds the new record alone
    (given that the disk can be written and that the CSV text of the record
    can be computed). *)
Theorem unparsable_store_read_as_empty :
  forall (e : env) (d : disk) (body : record) (text csv : string),
    jsonFile d = Some text ->
    Json.parse text = Throw SyntaxError ->
    truthy (get body "userType") = true ->
    writable d = true ->
    csvContent [enrich e body] = Ok csv ->
    stored d = Ok (JArr [])
    /\ submit e body d
       = (mkDisk true
            (Some (Json.stringify (JArr [JObj (enrich e body)])))
            (Some csv) true,
          Ok (Submitted (Data (new_id e)) 1)).
Proof.
  intros e d body text csv Hf Hp Hu Hw Hcsv.
  pose proof (stored_unparsable d text Hf Hp) as Hr.
  split; [ exact Hr | ].
  rewrite (submit_steps e d body [] [enrich e body] csv Hu Hw Hr eq_refl Hcsv).
  now rewrite (get_own _ _ _ (enrich_id e body)).
Qed.

(** C7 fails as stated: the file can be read, its content is not JSON
    text, and the submission is answered 200. *)
Lemma corrupt_store_submission_succeeds :
  readFile corrupt_disk = (corrupt_disk, Ok "not json")
  /\ Json.parse "not json" = Throw SyntaxError
  /\ snd (submit env1 participant corrupt_disk)
     = Ok (Submitted (Data (JStr "1793556732125_k3j9x0q2a")) 1).
Proof. repeat split; vm_compute; reflexivity. Qed.

(** C7, as amended.  When the JSON file holds JSON text of a value that is
    not an array, the submission is answered 500 ("Failed to save survey
    response") and the disk is left as it was. *)
Theorem non_array_store_fails :
  forall (e : env) (d : disk) (body : record) (text : string) (v : value),
    jsonFile d = Some text ->
    Json.parse text = Ok v ->
    (forall items, v <> JArr items) ->
    truthy (get body "userType") = true ->
    responsesDir d = true ->
    submit e body d
    = (d, Ok (SaveFailed "Failed to save survey response" TypeError)).
Proof.
  intros e d body text v Hf Hp Hv Hu Hdir.
  apply (submit_not_array e d body v Hu Hdir); [ | exact Hv ].
  now apply (stored_parsed d text).
Qed.

(** C8 fails as stated: the payload carries the timestamp 0, and the
    record that is stored has the current instant in its place. *)
Lemma carried_zero_timestamp_replaced :
  own_get zero_timestamp "timestamp" = Some (JNum 0)
  /\ snd (submit env1 zero_timestamp empty_disk)
     = Ok (Submitted (Data (JStr "1793556732125_k3j9x0q2a")) 1)
  /\ jsonFile (fst (submit env1 zero_timestamp empty_disk))
     = Some (Json.stringify
               (JArr [JObj [("userType", JStr "participant");
                            ("timestamp", JStr "2026-11-01T18:12:12.123Z");
                            ("id", JStr "1793556732125_k3j9x0q2a")]])).
Proof. repeat split; vm_compute; reflexivity. Qed.

(** C8, as amended.  In a successful submission the persisted record is the
    payload with its timestamp unchanged when that is truthy (as every
    non-empty string is); with the timestamp set to [toISOString] of the
    current instant when the payload has none or a falsy one ([null],
    [false], [0], the empty string), a text that denotes the current
    instant and that in the years 0 to 9999 has the 24 characters of
    YYYY-MM-DDTHH:mm:ss.sssZ; and with [id] set to the decimal [Date.now()], an underscore
    and the random part, whatever [id] the payload carried.  The response
    returns that [id]. *)
Theorem persisted_record_enriched :
  forall (e : env) (d d' : disk) (body : record) (rid : jsval) (total : nat),
    submit e body d = (d', Ok (Submitted rid total)) ->
    (exists items,
        stored d = Ok (JArr items)
        /\ jsonFile d'
           = Some (Json.stringify (JArr (items ++ [JObj (enrich e body)]))))
    /\ (forall c s, own_get body "timestamp" = Some (JStr (String c s)) ->
                    own_get (enrich e body) "timestamp" = Some (JStr (String c s)))
    /\ (forall t, own_get body "timestamp" = Some t ->
                  truthy_value t = true ->
                  own_get (enrich e body) "timestamp" = Some t)
    /\ (own_get body "timestamp" = None
        \/ (exists t, own_get body "timestamp" = Some t
                      /\ truthy_value t = false) ->
        own_get (enrich e body) "timestamp"
        = Some (JStr (Dates.toISOString (clock e))))
    /\ (Dates.time_value (clock e) ->
        Dates.instant_of (Dates.toISOString (clock e)) = Some (clock e))
    /\ (Dates.four_digit_year (clock e) ->
        String.length (Dates.toISOString (clock e)) = 24)
    /\ own_get (enrich e body) "id"
       = Some (JStr (number_to_string (clock_id e) ++ "_" ++ random_part e)%string)
    /\ rid = Data (JStr (number_to_string (clock_id e) ++ "_" ++ random_part e)%string).
Proof.
  intros e d d' body rid total Hs.
  apply submit_ok in Hs
    as (_ & _ & items & rs & csv & Hr & _ & _ & -> & Hid & _).
  split; [ exists items; now split | ].
  split; [ intros c s Ht; now apply enrich_timestamp_kept | ].
  split; [ intros t Ht Htrue; now apply enrich_timestamp_kept | ].
  split.
  { intros Ht. apply enrich_timestamp_set. unfold get.
    destruct Ht as [ -> | (t & -> & Hfalse) ]; [ reflexivity | exact Hfalse ]. }
  split; [ apply IsoRoundTrip.instant_of_toISOString | ].
  split; [ apply IsoRoundTrip.toISOString_length_24 | ].
  split; [ apply enrich_id | ].
  rewrite Hid. apply get_own, enrich_id.
Qed.



(** C10 fails as stated: a key with two adjacent double quotes in it gets
    a header field that is a well-formed quoted field (of another name). *)
Lemma doubled_quote_key_header_well_formed :
  Csv.count_quotes quoted_key = 2
  /\ csvHeader (headers_of [[(quoted_key, JStr "v")]]) = header_field quoted_key
  /\ Csv.well_formed (header_field quoted_key) = true
  /\ Csv.unquote (header_field quoted_key) = Some ("a" ++ q ++ "b")%string.
Proof. repeat split; vm_compute; reflexivity. Qed.

(** C10, as amended.  A header field is the key between two double quotes,
    with no doubling, where a data field doubles the quotes of its value.
    For a key with a double quote in it the header field therefore differs
    from the quoted field of that key, and read as a quoted CSV field it
    never gives the key back.  It is a well-formed quoted field only when
    every quote of the key is half of an adjacent pair, that is when the key
    is the quote-doubled form of another string, and it then denotes that
    other string; in every other case, as when the number of quotes is odd,
    it is not well formed. *)
Theorem header_field_not_escaped :
  forall (rs : list record) (r : record) (h : string),
    In r rs -> In h (keys r) -> 1 <= Csv.count_quotes h ->
    In h (headers_of rs)
    /\ csvHeader (headers_of rs)
       = join "," (map (fun k => q ++ k ++ q)%string (headers_of rs))
    /\ header_field h <> (q ++ double_quotes h ++ q)%string
    /\ Csv.unquote (q ++ double_quotes h ++ q)%string = Some h
    /\ Csv.unquote (header_field h) <> Some h
    /\ (Nat.odd (Csv.count_quotes h) = true ->
        Csv.well_formed (header_field h) = false)
    /\ (Csv.well_formed (header_field h) = true
        <-> exists h', h = double_quotes h')
    /\ (forall h', h = double_quotes h' ->
                   Csv.unquote (header_field h) = Some h' /\ h' <> h).
Proof.
  intros rs r h Hr Hk Hq.
  assert (Hu : forall h', Csv.unquote (header_field h) = Some h' ->
                          Csv.count_quotes h = 2 * Csv.count_quotes h').
  { intros h' H. pose proof (unquote_body_count h false h' H) as Hc.
    cbv iota in Hc. lia. }
  split; [ apply headers_sorted_union; now exists r | ].
  split; [ reflexivity | ].
  split.
  { unfold header_field. intros H. apply StringFacts.append_inj_l in H.
    apply (f_equal String.length) in H.
    rewrite !StringFacts.length_append, length_double_quotes in H. lia. }
  split; [ apply unquote_data_field | ].
  split; [ intros H; apply Hu in H; lia | ].
  split.
  { intros Hodd. unfold Csv.well_formed.
    destruct (Csv.unquote (header_field h)) as [ h' | ] eqn:E; [ | reflexivity ].
    rewrite (Hu h' eq_refl), Nat.odd_mul in Hodd. discriminate. }
  split; [ apply header_field_well_formed | ].
  intros h' E.
  assert (Hun : Csv.unquote (header_field h) = Some h')
    by (rewrite E; apply unquote_data_field).
  split; [ exact Hun | ].
  intros ->. apply Hu in Hun. lia.
Qed.

Section StatsClaim.

Variable toDateString : jsval -> string.


End StatsClaim.

(** *** Instances *)

Lemma submissions_accumulate_witness :
  jsonFile empty_disk = None
  /\ two_requests <> []
  /\ Forall (fun request => Json.wf_record (snd request) = true) two_requests
  /\ exists d' responses,
      submit_all two_requests empty_disk = (d', Ok responses)
      /\ Forall succeeded responses
      /\ List.length responses = 2
      /\ getAllResponses d'
         = (d', Ok (Found (mkAll (Data (JNum 2)) (JArr (appended two_requests)))))
      /\ exists s, getStats iso_day d' = (d', Ok (Found s))
                   /\ totalResponses s = 2.
Proof.
  split; [ reflexivity | ].
  split; [ discriminate | ].
  split; [ repeat constructor | ].
  eexists. eexists.
  split; [ vm_compute; reflexivity | ].
  split; [ repeat constructor | ].
  refine (match submissions_accumulate iso_day two_requests empty_disk _ _
                  eq_refl _ _ _ _ with
          | conj Hlen (conj _ (conj Hall (conj Hstats _))) =>
              conj Hlen (conj Hall Hstats)
          end).
  - discriminate.
  - repeat constructor.
  - vm_compute. reflexivity.
  - repeat constructor.
Defined.

Lemma invalid_submission_rejected_witness :
  (own_get no_userType "userType" = None
   \/ own_get no_userType "userType" = Some (JStr ""))
  /\ submit env1 no_userType empty_disk
     = (empty_disk, Ok (BadRequest "User type is required")).
Proof.
  split; [ left; reflexivity | ].
  apply (invalid_submission_rejected env1 empty_disk no_userType).
  left. reflexivity.
Defined.

Lemma unparsable_store_read_as_empty_witness :
  jsonFile corrupt_disk = Some "not json"
  /\ Json.parse "not json" = Throw SyntaxError
  /\ truthy (get participant "userType") = true
  /\ writable corrupt_disk = true
  /\ exists csv,
      csvContent [enrich env1 participant] = Ok csv
      /\ stored corrupt_disk = Ok (JArr [])
      /\ submit env1 participant corrupt_disk
         = (mkDisk true
              (Some (Json.stringify (JArr [JObj (enrich env1 participant)])))
              (Some csv) true,
            Ok (Submitted (Data (new_id env1)) 1)).
Proof.
  repeat (split; [ reflexivity | ]).
  eexists. split; [ vm_compute; reflexivity | ].
  apply (unparsable_store_read_as_empty env1 corrupt_disk participant "not json");
    reflexivity.
Defined.

Lemma non_array_store_fails_witness :
  jsonFile object_disk = Some "{}"
  /\ Json.parse "{}" = Ok (JObj [])
  /\ (forall items, JObj [] <> JArr items)
  /\ truthy (get participant "userType") = true
  /\ responsesDir object_disk = true
  /\ submit env1 participant object_disk
     = (object_disk, Ok (SaveFailed "Failed to save survey response" TypeError)).
Proof.
  split; [ reflexivity | ]. split; [ reflexivity | ].
  split; [ discriminate | ]. split; [ reflexivity | ]. split; [ reflexivity | ].
  apply (non_array_store_fails env1 object_disk participant "{}" (JObj []));
    try reflexivity.
  discriminate.
Defined.

Lemma persisted_record_enriched_witness :
  exists d',
    submit env1 participant empty_disk
    = (d', Ok (Submitted (Data (JStr "1793556732125_k3j9x0q2a")) 1))
    /\ own_get participant "timestamp" = None
    /\ own_get (enrich env1 participant) "timestamp"
       = Some (JStr (Dates.toISOString (clock env1)))
    /\ Dates.toISOString (clock env1) = "2026-11-01T18:12:12.123Z"
    /\ Dates.instant_of (Dates.toISOString (clock env1)) = Some 1793556732123%Z
    /\ own_get (enrich env1 participant) "id"
       = Some (JStr "1793556732125_k3j9x0q2a").
Proof.
  eexists. split; [ vm_compute; reflexivity | ].
  split; [ reflexivity | ].
  refine (match persisted_record_enriched env1 empty_disk _ participant _ 1 _ with
          | conj _ (conj _ (conj _ (conj Hset (conj Hiso (conj _ (conj Hid _)))))) =>
              conj (Hset (or_introl eq_refl))
                (conj eq_refl
                   (conj (Hiso (conj _ _)) Hid))
          end).
  - vm_compute. reflexivity.
  - vm_compute. discriminate.
  - vm_compute. discriminate.
Defined.


Lemma header_field_not_escaped_witness :
  In [(split_quotes_key, JStr "v")] [[(split_quotes_key, JStr "v")]]
  /\ In split_quotes_key (keys [(split_quotes_key, JStr "v")])
  /\ 1 <= Csv.count_quotes split_quotes_key
  /\ Nat.odd (Csv.count_quotes split_quotes_key) = false
  /\ Csv.well_formed (header_field split_quotes_key) = false
  /\ (Csv.well_formed (header_field split_quotes_key) = true
      <-> exists h', split_quotes_key = double_quotes h')
  /\ Csv.unquote (header_field split_quotes_key) <> Some split_quotes_key.
Proof.
  split; [ left; reflexivity | ]. split; [ left; reflexivity | ].
  split; [ vm_compute; lia | ].
  split; [ reflexivity | ]. split; [ reflexivity | ].
  refine (match header_field_not_escaped [[(split_quotes_key, JStr "v")]]
                  [(split_quotes_key, JStr "v")] split_quotes_key _ _ _ with
          | conj _ (conj _ (conj _ (conj _ (conj Hun (conj _ (conj Hwf _)))))) =>
              conj Hwf Hun
          end).
  - left. reflexivity.
  - left. reflexivity.
  - vm_compute. lia.
Defined.


End Claims.

(** ** Further properties of the CSV projection *)

Module CsvCoverage.

Import Js JsFacts Server CsvFacts Examples.
Local Open Scope list_scope.

Lemma key_lt_trans (a b c : string) : key_lt a b -> key_lt b c -> key_lt a c.
Proof.
  unfold key_lt, String.ltb. intros Hab Hbc.
  destruct (String.compare a b) eqn:Eab; try discriminate.
  destruct (String.compare b c) eqn:Ebc; try discriminate.
  apply OrderedTypeEx.String_as_OT.cmp_lt in Eab, Ebc.
  pose proof (OrderedTypeEx.String_as_OT.lt_trans _ _ _ Eab Ebc) as Hac.
  apply OrderedTypeEx.String_as_OT.cmp_lt in Hac.
  unfold OrderedTypeEx.String_as_OT.cmp in Hac. now rewrite Hac.
Qed.

Lemma key_lt_irrefl (a : string) : ~ key_lt a a.
Proof.
  unfold key_lt, String.ltb. intros H.
  assert (E : String.compare a a = Eq)
    by now apply OrderedTypeEx.String_as_OT.cmp_eq.
  rewrite E in H. discriminate.
Qed.

Lemma sorted_strongly (l : list string) : Sorted key_lt l -> StronglySorted key_lt l.
Proof.
  apply Sorted_StronglySorted. intros a b c. apply key_lt_trans.
Qed.

(** Two strictly ascending lists with the same elements are the same list. *)
Lemma strictly_sorted_unique (l1 : list string) :
  forall l2,
    StronglySorted key_lt l1 -> StronglySorted key_lt l2 ->
    (forall k, In k l1 <-> In k l2) -> l1 = l2.
Proof.
  induction l1 as [ | a l1 IH ]; intros l2 H1 H2 Hin.
  - destruct l2 as [ | b l2 ]; [ reflexivity | ].
    destruct (proj2 (Hin b) (or_introl eq_refl)).
  - destruct l2 as [ | b l2 ].
    { destruct (proj1 (Hin a) (or_introl eq_refl)). }
    inversion H1 as [ | ? ? H1' Ha ]. subst.
    inversion H2 as [ | ? ? H2' Hb ]. subst.
    rewrite Forall_forall in Ha, Hb.
    assert (Hab : a = b).
    { destruct (proj1 (Hin a) (or_introl eq_refl)) as [ E | Ha2 ]; [ now symmetry | ].
      destruct (proj2 (Hin b) (or_introl eq_refl)) as [ E | Hb1 ]; [ exact E | ].
      destruct (key_lt_irrefl a).
      apply (key_lt_trans a b a); [ now apply Ha | now apply Hb ]. }
    subst b. f_equal. apply IH; try assumption.
    intros k. split; intros Hk.
    + destruct (proj1 (Hin k) (or_intror Hk)) as [ E | Hk2 ]; [ | exact Hk2 ].
      subst k. destruct (key_lt_irrefl a). now apply Ha.
    + destruct (proj2 (Hin k) (or_intror Hk)) as [ E | Hk1 ]; [ | exact Hk1 ].
      subst k. destruct (key_lt_irrefl a). now apply Hb.
Qed.

Lemma headers_same_keys (rs rs' : list record) :
  (forall k, (exists r, In r rs /\ In k (keys r))
             <-> (exists r, In r rs' /\ In k (keys r))) ->
  headers_of rs = headers_of rs'.
Proof.
  intros H.
  destruct (headers_sorted_union rs) as (S1 & _ & I1).
  destruct (headers_sorted_union rs') as (S2 & _ & I2).
  apply strictly_sorted_unique; try now apply sorted_strongly.
  intros k. now rewrite I1, I2.
Qed.

(** X1.  The header row of the CSV names every key of every record once,
    in strictly ascending order of the keys, and nothing else; a header
    field is the key between two double quotes. *)
Theorem header_row_is_sorted_union :
  forall rs : list record,
    StronglySorted key_lt (headers_of rs)
    /\ NoDup (headers_of rs)
    /\ (forall k, In k (headers_of rs) <-> exists r, In r rs /\ In k (keys r))
    /\ csvHeader (headers_of rs)
       = join "," (map (fun k => q ++ k ++ q)%string (headers_of rs)).
Proof.
  intros rs. destruct (headers_sorted_union rs) as (S & N & I).
  repeat split; try assumption; try now apply sorted_strongly.
  - now apply I.
  - now apply I.
Qed.

(** X2.  The header row depends on the set of keys only: the same records
    in another order give the same header row, and a further record never
    removes a column. *)
Theorem header_row_independent_of_order :
  forall rs rs' : list record,
    Permutation rs rs' ->
    headers_of rs = headers_of rs'
    /\ forall r, incl (headers_of rs) (headers_of (rs' ++ [r])).
Proof.
  intros rs rs' P. split.
  - apply headers_same_keys. intros k.
    split; intros (r & Hr & Hk); exists r; split; try assumption.
    + now apply (Permutation_in _ P).
    + now apply (Permutation_in _ (Permutation_sym P)).
  - intros r k Hk.
    apply headers_sorted_union in Hk. destruct Hk as (r0 & Hr0 & Hk0).
    apply headers_sorted_union. exists r0. split; [ | exact Hk0 ].
    apply in_or_app. left. now apply (Permutation_in _ P).
Qed.

Lemma Forall2_length_eq {A B : Type} (R : A -> B -> Prop) (l : list A) (l' : list B) :
  Forall2 R l l' -> List.length l = List.length l'.
Proof. induction 1; cbn [List.length]; congruence. Qed.

(** What a data field holds: the empty string for a falsy property, the
    string of the property otherwise. *)
Lemma field_shape (r : record) (h f : string) :
  field r h = Ok f ->
  exists s,
    f = (q ++ double_quotes s ++ q)%string
    /\ (truthy (get r h) = true -> String_ (get r h) = Ok s)
    /\ (truthy (get r h) = false -> s = "").
Proof.
  unfold field. destruct (truthy (get r h)) eqn:T.
  - destruct (String_ (get r h)) as [ s | err | ]; cbn [andThen]; try discriminate.
    intros H. injection H as <-. exists s. repeat split. discriminate.
  - cbn [String_ to_string andThen]. intros H. injection H as <-.
    exists "". repeat split. discriminate.
Qed.

(** X3.  The CSV text is the header row followed by one row per record, in
    the order of the records, the rows separated by line feeds; every row
    has exactly one field per column, the fields separated by commas. *)
Theorem csv_one_row_per_record :
  forall (rs : list record) (text : string),
    csvContent rs = Ok text ->
    exists rows,
      text = join (String newline EmptyString) (csvHeader (headers_of rs) :: rows)
      /\ List.length rows = List.length rs
      /\ Forall2 (fun r row =>
                    exists fields,
                      row = join "," fields
                      /\ List.length fields = List.length (headers_of rs)
                      /\ Forall2 (fun header f => field r header = Ok f)
                           (headers_of rs) fields)
           rs rows.
Proof.
  intros rs text H.
  destruct (csvContent_rows rs text H) as (rows & -> & Hrows).
  exists rows. split; [ reflexivity | ]. split.
  - symmetry. exact (Forall2_length_eq _ _ _ Hrows).
  - eapply Forall2_impl; [ | exact Hrows ].
    intros r row (fields & -> & Hf). exists fields.
    split; [ reflexivity | ]. split; [ | exact Hf ].
    symmetry. exact (Forall2_length_eq _ _ _ Hf).
Qed.

(** X4.  Every data field is a well-formed quoted CSV field, whatever
    double quotes its value holds, and reading it back gives the string of
    the value (the empty string for a falsy value). *)
Theorem data_field_reads_back :
  forall (r : record) (h f : string),
    field r h = Ok f ->
    Csv.well_formed f = true
    /\ exists s,
        Csv.unquote f = Some s
        /\ (truthy (get r h) = true -> String_ (get r h) = Ok s)
        /\ (truthy (get r h) = false -> s = "").
Proof.
  intros r h f H. destruct (field_shape r h f H) as (s & -> & Ht & Hf).
  split.
  - unfold Csv.well_formed. now rewrite unquote_data_field.
  - exists s. split; [ apply unquote_data_field | now split ].
Qed.

(** X5.  A data field is the empty field exactly when the property read is
    falsy (absent and not inherited, [null], [false], [0], the empty
    string) or has the empty string as its string (such as the empty
    array). *)
Theorem data_field_empty_iff :
  forall (r : record) (h : string),
    field r h = Ok (q ++ q)%string
    <-> (truthy (get r h) = false \/ String_ (get r h) = Ok "").
Proof.
  intros r h. split.
  - intros H. destruct (field_shape r h _ H) as (s & E & Ht & Hf).
    assert (Hs : s = "").
    { apply (f_equal String.length) in E.
      rewrite !StringFacts.length_append, length_double_quotes in E.
      destruct s; [ reflexivity | cbn [String.length] in E; lia ]. }
    subst s. destruct (truthy (get r h)); [ right; now apply Ht | now left ].
  - unfold field. intros [ H | H ].
    + now rewrite H.
    + destruct (truthy (get r h)); [ now rewrite H | reflexivity ].
Qed.

(** *** Instances *)

Lemma header_row_independent_of_order_witness :
  Permutation [participant; stakeholder] [stakeholder; participant]
  /\ headers_of [participant; stakeholder] = headers_of [stakeholder; participant].
Proof.
  split; [ apply perm_swap | ].
  exact (proj1 (header_row_independent_of_order
                  [participant; stakeholder] [stakeholder; participant]
                  (perm_swap _ _ _))).
Defined.

Lemma csv_one_row_per_record_witness :
  exists text,
    csvContent [participant; stakeholder] = Ok text
    /\ exists rows,
        text = join (String newline EmptyString)
                 (csvHeader (headers_of [participant; stakeholder]) :: rows)
        /\ List.length rows = 2.
Proof.
  eexists. split; [ vm_compute; reflexivity | ].
  destruct (csv_one_row_per_record [participant; stakeholder] _
              ltac:(vm_compute; reflexivity)) as (rows & Ht & Hl & _).
  exists rows. split; [ exact Ht | exact Hl ].
Defined.

Lemma data_field_reads_back_witness :
  field [("note", JStr ("say " ++ q ++ "hi" ++ q))] "note"
  = Ok (q ++ "say " ++ q ++ q ++ "hi" ++ q ++ q ++ q)%string
  /\ Csv.well_formed (q ++ "say " ++ q ++ q ++ "hi" ++ q ++ q ++ q)%string = true.
Proof.
  split; [ vm_compute; reflexivity | ].
  exact (proj1 (data_field_reads_back [("note", JStr ("say " ++ q ++ "hi" ++ q))]
                  "note" _ ltac:(vm_compute; reflexivity))).
Defined.

End CsvCoverage.

(** ** Further properties of the submission handler *)

Module SubmitCoverage.

Import Js JsFacts Server JsonFacts ServerFacts QueryFacts CsvFacts Examples.
Local Open Scope list_scope.

Local Ltac run :=
  cbv beta iota
      delta [submit catch bind ret lift access_dir mkdir writeFile
             writeFile_csv saveAsCSV fst snd].

(** *** The steps of a computation that returns *)

Lemma bind_ok {A B : Type} (c : io A) (f : A -> io B) (d d' : disk) (b : B) :
  bind c f d = (d', Ok b) ->
  exists d1 a, c d = (d1, Ok a) /\ f a d1 = (d', Ok b).
Proof.
  unfold bind. destruct (c d) as [d1 [ a | err | ]]; try discriminate.
  intros H. now exists d1, a.
Qed.

Lemma catch_ok {A : Type} (c : io A) (handler : error -> io A)
      (d d' : disk) (a : A) :
  catch c handler d = (d', Ok a) ->
  c d = (d', Ok a) \/ exists d1 err, c d = (d1, Throw err) /\ handler err d1 = (d', Ok a).
Proof.
  unfold catch. destruct (c d) as [d1 [ x | err | ]]; try discriminate.
  - intros H. now left.
  - intros H. right. now exists d1, err.
Qed.

(** *** The identifier *)

Lemma digits_inj (u : uint) : forall u', digits u = digits u' -> u = u'.
Proof.
  induction u as [ | u IH | u IH | u IH | u IH | u IH | u IH | u IH | u IH
                   | u IH | u IH ];
    intros [ | u' | u' | u' | u' | u' | u' | u' | u' | u' | u' ];
    cbn [digits]; intros H; try discriminate H; try reflexivity;
    injection H as H; f_equal; now apply IH.
Qed.

Lemma digits_plain (u : uint) :
  Forall (fun c => c <> "_"%char /\ c <> "-"%char) (digits u).
Proof.
  induction u; cbn [digits]; constructor; try assumption;
    split; discriminate.
Qed.

Lemma number_chars_inj (n n' : Z) : number_chars n = number_chars n' -> n = n'.
Proof.
  unfold number_chars. intros H. apply DecimalZ.to_int_inj.
  destruct (Z.to_int n) as [ u | u ], (Z.to_int n') as [ u' | u' ].
  - f_equal. now apply digits_inj.
  - pose proof (digits_plain u) as Hp. rewrite H in Hp.
    inversion Hp as [ | ? ? [_ Hc] _ ]. now destruct Hc.
  - pose proof (digits_plain u') as Hp. rewrite <- H in Hp.
    inversion Hp as [ | ? ? [_ Hc] _ ]. now destruct Hc.
  - injection H as H. f_equal. now apply digits_inj.
Qed.

Lemma number_chars_no_underscore (n : Z) :
  Forall (fun c => c <> "_"%char) (number_chars n).
Proof.
  unfold number_chars.
  destruct (Z.to_int n) as [ u | u ]; [ | constructor; [ discriminate | ] ];
    (eapply Forall_impl; [ | apply digits_plain ]); now intros c [H _].
Qed.

(** The first underscore splits a text in one way only. *)
Lemma split_at_underscore (a : list ascii) :
  forall a' (b b' : string),
    Forall (fun c => c <> "_"%char) a -> Forall (fun c => c <> "_"%char) a' ->
    (string_of_list_ascii a ++ "_" ++ b)%string
    = (string_of_list_ascii a' ++ "_" ++ b')%string ->
    a = a' /\ b = b'.
Proof.
  induction a as [ | c a IH ]; intros [ | c' a' ] b b' Ha Ha';
    cbn [string_of_list_ascii String.append]; intros H.
  - injection H as H. now split.
  - injection H as Hc _. inversion Ha' as [ | ? ? Hne _ ]. now destruct Hne.
  - injection H as Hc _. inversion Ha as [ | ? ? Hne _ ]. now destruct Hne.
  - injection H as Hc H. subst c'.
    inversion Ha as [ | ? ? _ Ha1 ]. inversion Ha' as [ | ? ? _ Ha1' ]. subst.
    destruct (IH a' b b' Ha1 Ha1' H) as [ -> -> ]. now split.
Qed.

(** X11.  Two submissions get the same [id] exactly when they draw the same
    [Date.now()] value and the same random string: the first underscore of
    an [id] separates the two without ambiguity. *)
Theorem ids_differ_when_sources_differ :
  forall e1 e2 : env, new_id e1 = new_id e2 <-> id_source e1 = id_source e2.
Proof.
  intros e1 e2. unfold new_id, id_source, number_to_string. split.
  - intros H. injection H as H.
    apply split_at_underscore in H; try apply number_chars_no_underscore.
    destruct H as [ Hn Hr ]. apply number_chars_inj in Hn. congruence.
  - intros H. injection H as -> ->. reflexivity.
Qed.

(** *** What the handler adds to a payload *)

Lemma keys_set (r : record) (k : string) (v : value) :
  keys (set r k v) = add_key (keys r) k.
Proof.
  unfold keys, add_key.
  induction r as [ | [k' v'] r IH ]; cbn [set map fst existsb]; [ reflexivity | ].
  rewrite (String.eqb_sym k k').
  destruct (String.eqb k' k) eqn:E; cbn [orb map fst]; [ reflexivity | ].
  rewrite IH. now destruct (existsb (String.eqb k) (map fst r)).
Qed.

Lemma truthy_own (r : record) (k : string) :
  Object_prototype k = None -> truthy (get r k) = true -> In k (keys r).
Proof.
  unfold get, keys. intros Hp.
  destruct (own_get r k) as [ v | ] eqn:E; [ | now rewrite Hp ].
  intros _. induction r as [ | [k' v'] r IH ]; [ discriminate | ].
  cbn [own_get] in E. cbn [map fst In].
  destruct (String.eqb k' k) eqn:Ek; [ left; now apply String.eqb_eq | right; auto ].
Qed.

(** X12.  The handler keeps the payload as it is, apart from [id] and a
    missing or falsy [timestamp]: the keys stay in their order, [timestamp]
    and [id] go last when the payload does not have them, and every other
    property keeps its value. *)
Theorem enrichment_keeps_payload :
  forall (e : env) (body : record),
    keys (enrich e body) = add_key (add_key (keys body) "timestamp") "id"
    /\ (forall k, k <> "id" -> k <> "timestamp" ->
                  own_get (enrich e body) k = own_get body k)
    /\ (forall k, In k (keys body) -> In k (keys (enrich e body))).
Proof.
  intros e body.
  assert (Hk : keys (enrich e body) = add_key (add_key (keys body) "timestamp") "id").
  { unfold enrich. rewrite keys_set.
    destruct (truthy (get body "timestamp")) eqn:T.
    - apply (truthy_own body "timestamp" eq_refl) in T.
      apply existsb_eqb_In in T. unfold add_key at 3. now rewrite T.
    - now rewrite keys_set. }
  split; [ exact Hk | ]. split.
  - intros k H1 H2. now apply enrich_other.
  - intros k H. rewrite Hk, !add_key_In. auto.
Qed.

(** *** The fields of a stored record *)

Lemma append_nonempty (a b : string) : String.eqb (a ++ "_" ++ b) "" = false.
Proof.
  apply String.eqb_neq. intros H. apply (f_equal String.length) in H.
  rewrite !StringFacts.length_append in H. cbn [String.length] in H. lia.
Qed.

Lemma toISOString_nonempty (t : Z) : String.eqb (Dates.toISOString t) "" = false.
Proof.
  apply String.eqb_neq. intros H. apply (f_equal String.length) in H.
  unfold Dates.toISOString in H.
  destruct (Dates.civil_from_days (t / Dates.msPerDay)) as [[y m] dd].
  rewrite !StringFacts.length_append in H. cbn [String.length] in H. lia.
Qed.

Lemma enriched_has_required (e : env) (body : record) :
  truthy (get body "userType") = true -> has_required (enrich e body) = true.
Proof.
  intros Hu. unfold has_required.
  assert (H1 : get (enrich e body) "userType" = get body "userType").
  { unfold get. now rewrite enrich_other by discriminate. }
  assert (H3 : truthy (get (enrich e body) "id") = true).
  { rewrite (get_own _ _ _ (enrich_id e body)). unfold new_id.
    cbn [truthy truthy_value]. now rewrite append_nonempty. }
  assert (H2 : truthy (get (enrich e body) "timestamp") = true).
  { destruct (truthy (get body "timestamp")) eqn:T.
    - unfold get in T |- *.
      destruct (own_get body "timestamp") as [ t | ] eqn:Et; [ | discriminate ].
      cbn [truthy] in T. now rewrite (enrich_timestamp_kept e body t Et T).
    - rewrite (get_own _ _ _ (enrich_timestamp_set e body T)).
      cbn [truthy truthy_value]. now rewrite toISOString_nonempty. }
  now rewrite H1, Hu, H2, H3.
Qed.

Lemma map_JObj_inj (l l' : list record) : map JObj l = map JObj l' -> l = l'.
Proof.
  revert l'. induction l as [ | r l IH ]; intros [ | r' l' ]; cbn [map];
    intros H; try discriminate; [ reflexivity | ].
  injection H as -> H. f_equal. now apply IH.
Qed.

(** X10.  Every record the handler stores has a truthy [userType],
    [timestamp] and [id]: when the records of the store have them, so have
    the records of the store after a successful submission, which are the
    earlier ones followed by the new one. *)
Theorem required_fields_invariant :
  forall (e : env) (d d' : disk) (body : record) (rid : jsval) (total : nat)
         (rs : list record),
    Json.wf_record body = true ->
    stored d = Ok (JArr (map JObj rs)) ->
    forallb has_required rs = true ->
    submit e body d = (d', Ok (Submitted rid total)) ->
    stored d' = Ok (JArr (map JObj (rs ++ [enrich e body])))
    /\ forallb has_required (rs ++ [enrich e body]) = true.
Proof.
  intros e d d' body rid total rs Hwf Hs Hreq Hsub.
  destruct (Claims.submit_appends e d d' body rid total Hwf Hsub)
    as (items & rs1 & Hs0 & _ & _ & _ & Hs1 & _ & _ & _).
  rewrite Hs in Hs0. injection Hs0 as <-.
  apply submit_ok in Hsub as (Hu & _).
  split.
  - rewrite Hs1, map_app. reflexivity.
  - rewrite forallb_app, Hreq. cbn [forallb].
    now rewrite (enriched_has_required e body Hu).
Qed.

(** *** Answers *)

(** X9.  The submission is answered 400 exactly when the [userType] of the
    payload is falsy (absent, [null], [false], [0] or the empty string);
    the kind of a truthy [userType] is not looked at. *)
Theorem bad_request_iff_userType_falsy :
  forall (e : env) (d : disk) (body : record),
    (exists msg, snd (submit e body d) = Ok (BadRequest msg))
    <-> truthy (get body "userType") = false.
Proof.
  intros e d body. split.
  - intros (msg & H).
    destruct (truthy (get body "userType")) eqn:Hu; [ exfalso | reflexivity ].
    destruct (submit e body d) as [d' r] eqn:Hs. cbn [snd] in H. subst r.
    unfold submit in Hs. rewrite Hu in Hs. cbn [negb] in Hs.
    apply catch_ok in Hs. destruct Hs as [ Hs | (d1 & err & _ & Hs) ].
    + repeat (apply bind_ok in Hs; destruct Hs as (? & ? & _ & Hs)).
      discriminate Hs.
    + discriminate Hs.
  - intros H. exists "User type is required".
    now rewrite (submit_invalid e d body H).
Qed.

(** X8.  When no write can complete, a valid submission on a store that
    holds an array is answered 500 with the error of the write, and the
    disk is left as it was. *)
Theorem unwritable_disk_fails_unchanged :
  forall (e : env) (d : disk) (body : record) (items : list value),
    truthy (get body "userType") = true ->
    writable d = false ->
    stored d = Ok (JArr items) ->
    submit e body d = (d, Ok (SaveFailed "Failed to save survey response" EACCES)).
Proof.
  intros e d body items Hu Hw Hs. run. rewrite Hu. cbn [negb].
  destruct (responsesDir d) eqn:Hdir.
  - rewrite read_existing_stored, Hs. cbn [push]. now rewrite Hdir, Hw.
  - now rewrite Hw.
Qed.

(** X7.  The JSON file is written before the CSV text is computed, and
    nothing is undone: when the CSV step throws, the submission is answered
    500 although the record is in the store, where the list of all
    responses shows it; the CSV file stays as it was. *)
Theorem csv_failure_keeps_json_write :
  forall (e : env) (d : disk) (body : record) (items : list value)
         (rs : list record) (err : error),
    Json.wf_record body = true ->
    truthy (get body "userType") = true ->
    writable d = true ->
    stored d = Ok (JArr items) ->
    records_of (items ++ [JObj (enrich e body)]) = Ok rs ->
    csvContent rs = Throw err ->
    let d' := mkDisk true
                (Some (Json.stringify (JArr (items ++ [JObj (enrich e body)]))))
                (csvFile d) true in
    submit e body d = (d', Ok (SaveFailed "Failed to save survey response" err))
    /\ getAllResponses d'
       = (d', Ok (Found (mkAll (Data (JNum (Z.of_nat (List.length items + 1))))
                           (JArr (items ++ [JObj (enrich e body)]))))).
Proof.
  intros e d body items rs err Hwf Hu Hw Hs Hrs Hcsv d'. split.
  - subst d'. run. rewrite Hu. cbn [negb].
    assert (Hnonempty :
              Nat.eqb (List.length (items ++ [JObj (enrich e body)])) 0 = false)
      by (rewrite length_app; cbn [List.length]; apply Nat.eqb_neq; lia).
    destruct (responsesDir d) eqn:Hdir.
    + rewrite read_existing_stored, Hs. cbn [push].
      rewrite Hdir, Hw, Hnonempty, Hrs, Hcsv.
      cbn [writable responsesDir jsonFile csvFile]. reflexivity.
    + rewrite Hw, read_existing_stored.
      match goal with
      | |- context [ stored ?x ] => rewrite (stored_same_file x d eq_refl)
      end.
      rewrite Hs. cbn [push writable responsesDir].
      rewrite Hnonempty, Hrs, Hcsv.
      reflexivity.
  - rewrite (getAllResponses_stored d' (items ++ [JObj (enrich e body)])).
    + now rewrite length_app.
    + reflexivity.
    + apply Claims.wf_items_app; [ now apply (stored_wf d) | now apply enrich_wf ].
Qed.

(** X6.  After a successful submission the CSV file is the projection of
    the whole store: the stored records are the ones the CSV text was
    computed from, as many as the answer reports, and the download handler
    sends that text. *)
Theorem csv_matches_store_after_submit :
  forall (e : env) (d d' : disk) (body : record) (rid : jsval) (total : nat),
    Json.wf_record body = true ->
    submit e body d = (d', Ok (Submitted rid total)) ->
    exists rs csv,
      stored d' = Ok (JArr (map JObj rs))
      /\ List.length rs = total
      /\ csvContent rs = Ok csv
      /\ csvFile d' = Some csv
      /\ downloadCsv d'
         = (d', Ok (Found (mkDownload "survey_responses.csv" csv))).
Proof.
  intros e d d' body rid total Hwf Hsub.
  destruct (Claims.submit_appends e d d' body rid total Hwf Hsub)
    as (items & rs1 & Hs0 & Hrs1 & _ & _ & Hs1 & _ & Ht & _).
  apply submit_ok in Hsub
    as (_ & _ & items' & rs & csv & Hs0' & Hrs & Hcsv & -> & _ & _).
  rewrite Hs0 in Hs0'. injection Hs0' as <-.
  apply records_of_ok in Hrs.
  exists rs, csv. repeat split.
  - now rewrite Hs1, Hrs.
  - rewrite Ht, <- (length_map JObj rs), <- Hrs, length_app. reflexivity.
  - exact Hcsv.
Qed.

(** *** Instances *)

Lemma required_fields_invariant_witness :
  Json.wf_record participant = true
  /\ stored empty_disk = Ok (JArr (map JObj []))
  /\ forallb has_required [] = true
  /\ exists d',
      submit env1 participant empty_disk
      = (d', Ok (Submitted (Data (new_id env1)) 1))
      /\ stored d' = Ok (JArr (map JObj ([] ++ [enrich env1 participant])))
      /\ forallb has_required ([] ++ [enrich env1 participant]) = true.
Proof.
  do 3 (split; [ reflexivity | ]).
  eexists. split; [ vm_compute; reflexivity | ].
  apply (required_fields_invariant env1 empty_disk _ participant
           (Data (new_id env1)) 1 []); reflexivity.
Defined.

Lemma unwritable_disk_fails_unchanged_witness :
  truthy (get participant "userType") = true
  /\ writable full_disk = false
  /\ stored full_disk = Ok (JArr [])
  /\ submit env1 participant full_disk
     = (full_disk, Ok (SaveFailed "Failed to save survey response" EACCES)).
Proof.
  do 3 (split; [ reflexivity | ]).
  apply (unwritable_disk_fails_unchanged env1 full_disk participant []);
    reflexivity.
Defined.

Lemma csv_failure_keeps_json_write_witness :
  Json.wf_record shadowing = true
  /\ truthy (get shadowing "userType") = true
  /\ writable empty_disk = true
  /\ stored empty_disk = Ok (JArr [])
  /\ records_of ([] ++ [JObj (enrich env1 shadowing)]) = Ok [enrich env1 shadowing]
  /\ csvContent [enrich env1 shadowing] = Throw TypeError
  /\ snd (submit env1 shadowing empty_disk)
     = Ok (SaveFailed "Failed to save survey response" TypeError).
Proof.
  do 5 (split; [ reflexivity | ]).
  split; [ vm_compute; reflexivity | ].
  exact (f_equal snd
           (proj1 (csv_failure_keeps_json_write env1 empty_disk shadowing []
                     [enrich env1 shadowing] TypeError
                     eq_refl eq_refl eq_refl eq_refl eq_refl
                     ltac:(vm_compute; reflexivity)))).
Defined.

Lemma csv_matches_store_after_submit_witness :
  Json.wf_record participant = true
  /\ exists d' rs csv,
      submit env1 participant empty_disk
      = (d', Ok (Submitted (Data (new_id env1)) 1))
      /\ List.length rs = 1
      /\ csvContent rs = Ok csv
      /\ downloadCsv d'
         = (d', Ok (Found (mkDownload "survey_responses.csv" csv))).
Proof.
  split; [ reflexivity | ].
  eexists.
  destruct (csv_matches_store_after_submit env1 empty_disk _ participant
              (Data (new_id env1)) 1 eq_refl ltac:(vm_compute; reflexivity))
    as (rs & csv & _ & Hl & Hc & _ & Hd).
  exists rs, csv. split; [ vm_compute; reflexivity | ].
  split; [ exact Hl | ]. split; [ exact Hc | exact Hd ].
Defined.

End SubmitCoverage.

(** ** Further properties of the query handlers *)

Module QueryCoverage.

Import Js JsFacts Server JsonFacts ServerFacts QueryFacts CsvFacts Examples.
Import SubmitCoverage.
Local Open Scope list_scope.

Section Stats.

Variable toDateString : jsval -> string.

(** *** The day table *)

Lemma total_count_set (dc : list (string * Z)) (day : string) (n : Z) :
  total_count (date_set dc day n)
  = (total_count dc - match date_get dc day with Some m => m | None => 0 end + n)%Z.
Proof.
  unfold total_count, date_get.
  induction dc as [ | [k m] dc IH ]; cbn [date_set map snd fold_right find fst].
  - lia.
  - destruct (String.eqb k day); cbn [map snd fold_right fst]; [ lia | ].
    rewrite IH. lia.
Qed.

Lemma total_count_step (dc : list (string * Z)) (day : string) :
  total_count (count_date dc day) = (total_count dc + 1)%Z.
Proof.
  unfold count_date. rewrite total_count_set.
  destruct (date_get dc day) as [ m | ]; [ | lia ].
  destruct (m =? 0)%Z eqn:E; [ apply Z.eqb_eq in E | ]; lia.
Qed.

Lemma total_count_days (days : list string) (dc : list (string * Z)) :
  total_count (fold_left count_date days dc)
  = (total_count dc + Z.of_nat (List.length days))%Z.
Proof.
  revert dc. induction days as [ | day days IH ]; intros dc;
    cbn [fold_left List.length]; [ lia | ].
  rewrite IH, total_count_step. lia.
Qed.

Lemma date_get_In (dc : list (string * Z)) (day : string) (m : Z) :
  date_get dc day = Some m -> In m (map snd dc).
Proof.
  unfold date_get.
  induction dc as [ | [k n] dc IH ]; cbn [find fst snd map In]; [ discriminate | ].
  destruct (String.eqb k day); [ | auto ].
  intros H. injection H as <-. now left.
Qed.

Lemma date_set_counts (dc : list (string * Z)) (day : string) (n : Z) :
  (1 <= n)%Z -> Forall (fun m => 1 <= m)%Z (map snd dc) ->
  Forall (fun m => 1 <= m)%Z (map snd (date_set dc day n)).
Proof.
  intros Hn. induction dc as [ | [k m] dc IH ]; cbn [date_set map snd]; intros H.
  - now constructor.
  - inversion H as [ | ? ? Hm H' ]. subst.
    destruct (String.eqb k day); cbn [map snd]; constructor; auto.
Qed.

Lemma count_days_counts (days : list string) (dc : list (string * Z)) :
  Forall (fun m => 1 <= m)%Z (map snd dc) ->
  Forall (fun m => 1 <= m)%Z (map snd (fold_left count_date days dc)).
Proof.
  revert dc. induction days as [ | day days IH ]; intros dc H; [ exact H | ].
  cbn [fold_left]. apply IH. unfold count_date.
  apply date_set_counts; [ | exact H ].
  destruct (date_get dc day) as [ m | ] eqn:E; [ | lia ].
  apply date_get_In in E. rewrite Forall_forall in H. specialize (H m E).
  destruct (m =? 0)%Z; lia.
Qed.

(** *** The two counts *)

Lemma mapM_length {A B : Type} (f : A -> result B) (l : list A) (ys : list B) :
  mapM f l = Ok ys -> List.length ys = List.length l.
Proof.
  intros H. apply mapM_Forall2 in H. symmetry.
  induction H; cbn [List.length]; congruence.
Qed.

Lemma userType_counts_disjoint (items : list value) :
  forall a b,
    count_userType "stakeholder" items = Ok a ->
    count_userType "participant" items = Ok b ->
    a + b <= List.length items.
Proof.
  unfold count_userType.
  induction items as [ | x items IH ]; intros a b; cbn [mapM andThen].
  - intros H1 H2. injection H1 as <-. injection H2 as <-. cbn. lia.
  - destruct (member x "userType") as [ u | err | ]; cbn [andThen];
      try discriminate.
    destruct (mapM _ items) as [ fl1 | err | ]; cbn [andThen]; try discriminate.
    destruct (mapM _ items) as [ fl2 | err | ]; cbn [andThen]; try discriminate.
    intros H1 H2. injection H1 as <-. injection H2 as <-.
    specialize (IH _ _ eq_refl eq_refl). cbn [filter List.length].
    destruct u as [ | [ | | | s | | ] | | ]; cbn [List.length]; try lia.
    destruct (String.eqb s "stakeholder") eqn:E1;
      destruct (String.eqb s "participant") eqn:E2; cbn [List.length]; try lia.
    apply String.eqb_eq in E1, E2. congruence.
Qed.

(** *** What a 200 answer of the statistics holds *)

Lemma getStats_found (d d' : disk) (s : stats) :
  getStats toDateString d = (d', Ok (Found s)) ->
  d' = d
  /\ exists text items,
      jsonFile d = Some text
      /\ Json.parse text = Ok (JArr items)
      /\ compute_stats toDateString (JArr items) = Ok s.
Proof.
  unfold getStats. intros H.
  apply catch_ok in H. destruct H as [ H | (d1 & err & _ & H) ];
    [ | discriminate H ].
  apply bind_ok in H. destruct H as (d1 & text & Hr & H).
  apply bind_ok in H. destruct H as (d2 & v & Hp & H).
  apply bind_ok in H. destruct H as (d3 & s0 & Hc & H).
  unfold ret in H. injection H as <- <-.
  unfold lift in Hp, Hc. injection Hp as <- Hp. injection Hc as <- Hc.
  unfold readFile in Hr.
  destruct (jsonFile d) as [ text' | ] eqn:Hf; [ | discriminate ].
  injection Hr as <- <-. split; [ reflexivity | ].
  destruct v as [ | | | | items | ]; try discriminate Hc.
  now exists text', items.
Qed.

(** X14.  Whenever the statistics are answered 200, the numbers agree with
    each other: a response is counted as stakeholder or as participant or
    as neither, never as both; every day in [responsesByDate] has a count
    of at least one, no day occurs twice, and the counts add up to
    [totalResponses]. *)
Theorem stats_counts_add_up :
  forall (d d' : disk) (s : stats),
    getStats toDateString d = (d', Ok (Found s)) ->
    d' = d
    /\ stakeholderResponses s + participantResponses s <= totalResponses s
    /\ total_count (responsesByDate s) = Z.of_nat (totalResponses s)
    /\ Forall (fun n => 1 <= n)%Z (map snd (responsesByDate s))
    /\ NoDup (map fst (responsesByDate s)).
Proof.
  intros d d' s H.
  apply getStats_found in H. destruct H as (-> & text & items & _ & _ & Hc).
  split; [ reflexivity | ].
  cbn [compute_stats] in Hc.
  destruct (count_userType "stakeholder" items) as [ a | err | ] eqn:Ha;
    cbn [andThen] in Hc; try discriminate.
  destruct (count_userType "participant" items) as [ b | err | ] eqn:Hb;
    cbn [andThen] in Hc; try discriminate.
  destruct (getResponsesByDate toDateString items) as [ byDate | err | ] eqn:Hd;
    cbn [andThen] in Hc; try discriminate.
  match type of Hc with
  | andThen ?c _ = _ => destruct c as [ latest | err | ]
  end; cbn [andThen] in Hc; try discriminate.
  injection Hc as <-.
  cbn [stakeholderResponses participantResponses totalResponses responsesByDate].
  unfold getResponsesByDate in Hd.
  destruct (mapM _ items) as [ dates | err | ] eqn:Hm; cbn [andThen] in Hd;
    try discriminate.
  injection Hd as <-. apply mapM_length in Hm.
  repeat split.
  - now apply userType_counts_disjoint.
  - rewrite total_count_days, Hm. reflexivity.
  - apply count_days_counts. constructor.
  - apply count_dates_keys. constructor.
Qed.

Lemma compute_stats_total (items : list value) (s : stats) :
  compute_stats toDateString (JArr items) = Ok s ->
  totalResponses s = List.length items.
Proof.
  cbn [compute_stats].
  destruct (count_userType "stakeholder" items) as [ a | err | ];
    cbn [andThen]; try discriminate.
  destruct (count_userType "participant" items) as [ b | err | ];
    cbn [andThen]; try discriminate.
  destruct (getResponsesByDate toDateString items) as [ byDate | err | ];
    cbn [andThen]; try discriminate.
  match goal with
  | |- andThen ?c _ = _ -> _ => destruct c as [ latest | err | ]
  end; cbn [andThen]; try discriminate.
  intros H. now injection H as <-.
Qed.

(** X16.  The two read handlers agree: whenever the statistics are answered
    200, so is the list of all responses, and its count is the total of
    the statistics. *)
Theorem stats_agree_with_responses :
  forall (d d' : disk) (s : stats),
    getStats toDateString d = (d', Ok (Found s)) ->
    exists items,
      getAllResponses d
      = (d, Ok (Found (mkAll (Data (JNum (Z.of_nat (totalResponses s))))
                         (JArr items))))
      /\ List.length items = totalResponses s.
Proof.
  intros d d' s H.
  apply getStats_found in H. destruct H as (_ & text & items & Hf & Hp & Hc).
  apply compute_stats_total in Hc. exists items.
  rewrite (getAllResponses_parsed d text items Hf Hp), Hc. now split.
Qed.

(** X15.  After a successful submission the statistics are answered 200:
    their total is the total the submission reported, and their latest
    response is the timestamp of the record just stored, which is never
    missing. *)
Theorem stats_after_submit :
  forall (e : env) (d d' : disk) (body : record) (rid : jsval) (total : nat),
    Json.wf_record body = true ->
    submit e body d = (d', Ok (Submitted rid total)) ->
    exists s,
      getStats toDateString d' = (d', Ok (Found s))
      /\ totalResponses s = total
      /\ latestResponse s = get (enrich e body) "timestamp"
      /\ truthy (latestResponse s) = true.
Proof.
  intros e d d' body rid total Hwf Hsub.
  destruct (Claims.submit_appends e d d' body rid total Hwf Hsub)
    as (items & rs & _ & Hrs & Hf & Hw & _ & _ & Ht & Hdated).
  apply submit_ok in Hsub as (Hu & _).
  symmetry in Hrs. pose proof Hrs as Hmap.
  apply map_eq_app in Hmap. destruct Hmap as (rs0 & rs1 & -> & H0 & H1).
  destruct rs1 as [ | r [ | r' rs1 ] ]; try discriminate H1.
  injection H1 as ->.
  rewrite <- Hrs in Hf, Hw.
  eexists. split; [ apply (getStats_stored toDateString d' _ Hf Hw Hdated) | ].
  cbn [totalResponses latestResponse]. unfold latest_of.
  rewrite (map_app (fun r => get r "timestamp")). cbn [map]. rewrite last_last.
  repeat split.
  - rewrite Ht, <- H0, length_app, length_map. reflexivity.
  - pose proof (enriched_has_required e body Hu) as Hreq.
    unfold has_required in Hreq.
    apply andb_prop in Hreq. destruct Hreq as [ Hreq _ ].
    apply andb_prop in Hreq. now destruct Hreq.
Qed.

(** *** A timestamp that [new Date] rejects *)

Lemma to_string_outcome (v : value) :
  (exists s, to_string v = Ok s) \/ to_string v = Throw TypeError.
Proof.
  induction v as [ | b | n | s | items IH | fields IH ] using value_ind;
    try (left; eexists; reflexivity).
  - destruct b; left; eexists; reflexivity.
  - cbn [to_string].
    match goal with
    | |- context [ andThen ?c _ ] =>
        assert (H : (exists ss, c = Ok ss) \/ c = Throw TypeError)
    end.
    { induction IH as [ | x items Hx _ IHitems ]; [ left; now exists [] | ].
      assert (Hx' : (exists s, match x with JNull => Ok ""%string | _ => to_string x end
                               = Ok s)
                    \/ match x with JNull => Ok ""%string | _ => to_string x end
                       = Throw TypeError)
        by (destruct x; try exact Hx; left; eexists; reflexivity).
      destruct Hx' as [ (s & Es) | Es ];
        destruct IHitems as [ (ss & Ess) | Ess ].
      - left. exists (s :: ss). cbv beta iota. rewrite Es. cbn [andThen].
        rewrite Ess. reflexivity.
      - right. cbv beta iota. rewrite Es. cbn [andThen]. now rewrite Ess.
      - right. cbv beta iota. now rewrite Es.
      - right. cbv beta iota. now rewrite Es. }
    destruct H as [ (ss & ->) | -> ]; cbn [andThen];
      [ left; eexists; reflexivity | now right ].
  - cbn [to_string]. destruct (own_get fields "toString");
      [ now right | left; eexists; reflexivity ].
Qed.

Lemma undated_throws (r : record) :
  dated r = false -> to_primitive (get r "timestamp") = Throw TypeError.
Proof.
  unfold dated, to_primitive.
  destruct (get r "timestamp") as [ | v | name | ]; cbn [String_ andThen];
    try discriminate.
  destruct (to_string_outcome v) as [ (s & ->) | -> ]; cbn [andThen];
    [ discriminate | reflexivity ].
Qed.

Lemma dates_throw (rs : list record) :
  forallb dated rs = false ->
  getResponsesByDate toDateString (map JObj rs) = Throw TypeError.
Proof.
  unfold getResponsesByDate. intros H.
  match goal with
  | |- andThen (mapM ?f _) _ = _ =>
      assert (Hm : mapM f (map JObj rs) = Throw TypeError)
  end; [ | now rewrite Hm ].
  induction rs as [ | r rs IH ]; [ discriminate H | ].
  cbn [forallb] in H. cbn [map mapM member andThen].
  destruct (dated r) eqn:E.
  - rewrite (dated_date_string toDateString r E). cbn [andThen].
    cbn [andb] in H. now rewrite (IH H).
  - unfold date_string. now rewrite (undated_throws r E).
Qed.

(** X17.  When the timestamp of a stored record is an object or array that
    [new Date] cannot convert to a primitive, the statistics are answered
    404 "No responses found" with the TypeError, whatever the other records
    hold; the list of all responses is still answered 200. *)
Theorem stats_fail_on_rejected_timestamp :
  forall (d : disk) (text : string) (rs : list record),
    jsonFile d = Some text ->
    Json.parse text = Ok (JArr (map JObj rs)) ->
    forallb dated rs = false ->
    getStats toDateString d
    = (d, Ok (NotFound "No responses found" TypeError))
    /\ getAllResponses d
       = (d, Ok (Found (mkAll (Data (JNum (Z.of_nat (List.length rs))))
                          (JArr (map JObj rs))))).
Proof.
  intros d text rs Hf Hp Hd. split.
  - unfold getStats, catch, bind, readFile, lift, ret, JSON_parse.
    rewrite Hf, Hp. cbn [compute_stats].
    rewrite !count_userType_records, (dates_throw rs Hd). reflexivity.
  - rewrite (getAllResponses_parsed d text _ Hf Hp). now rewrite length_map.
Qed.

(** X13.  The two read handlers answer 404 "No responses found" when the
    JSON file is absent, when its content is not JSON text (which a
    submission reads as the empty store), and, for the statistics, when it
    holds JSON text of a value that is not an array; the download answers
    404 when there is no CSV file.  None of the three writes to the disk. *)
Theorem queries_not_found :
  forall d : disk,
    (jsonFile d = None ->
     getAllResponses d = (d, Ok (NotFound "No responses found" ENOENT))
     /\ getStats toDateString d = (d, Ok (NotFound "No responses found" ENOENT)))
    /\ (forall text,
          jsonFile d = Some text -> Json.parse text = Throw SyntaxError ->
          getAllResponses d = (d, Ok (NotFound "No responses found" SyntaxError))
          /\ getStats toDateString d
             = (d, Ok (NotFound "No responses found" SyntaxError))
          /\ stored d = Ok (JArr []))
    /\ (forall text v,
          jsonFile d = Some text -> Json.parse text = Ok v ->
          (forall items, v <> JArr items) ->
          getStats toDateString d
          = (d, Ok (NotFound "No responses found" TypeError)))
    /\ (csvFile d = None ->
        downloadCsv d = (d, Ok (NotFound "CSV file not found" ENOENT)))
    /\ fst (getAllResponses d) = d
    /\ fst (getStats toDateString d) = d
    /\ fst (downloadCsv d) = d.
Proof.
  intros d.
  unfold getAllResponses, getStats, downloadCsv, catch, bind, ret, lift,
    readFile, access_csv, res_download, JSON_parse.
  split; [ intros H; now rewrite H | ].
  split.
  { intros text H H0. split; [ now rewrite H, H0 | ].
    split; [ now rewrite H, H0 | now apply (stored_unparsable d text) ]. }
  split.
  { intros text v H H0 H1. rewrite H, H0.
    destruct v as [ | | | | items | ]; try reflexivity.
    now destruct (H1 items). }
  split; [ intros H; now rewrite H | ].
  split; [ | split ].
  - destruct (jsonFile d) as [ text | ]; [ | reflexivity ].
    destruct (Json.parse text) as [ v | err | ]; try reflexivity.
    destruct (length_of v) as [ n | err | ]; reflexivity.
  - destruct (jsonFile d) as [ text | ]; [ | reflexivity ].
    destruct (Json.parse text) as [ v | err | ]; try reflexivity.
    destruct (compute_stats toDateString v) as [ s | err | ]; reflexivity.
  - destruct (csvFile d); reflexivity.
Qed.

End Stats.

(** *** Instances *)

Lemma stats_counts_add_up_witness :
  exists s,
    getStats iso_day same_day_disk = (same_day_disk, Ok (Found s))
    /\ stakeholderResponses s + participantResponses s <= totalResponses s
    /\ total_count (responsesByDate s) = Z.of_nat (totalResponses s).
Proof.
  eexists. split; [ vm_compute; reflexivity | ].
  destruct (stats_counts_add_up iso_day same_day_disk same_day_disk _
              ltac:(vm_compute; reflexivity)) as (_ & H1 & H2 & _).
  split; [ exact H1 | exact H2 ].
Defined.

Lemma stats_agree_with_responses_witness :
  exists s items,
    getStats iso_day same_day_disk = (same_day_disk, Ok (Found s))
    /\ getAllResponses same_day_disk
       = (same_day_disk,
          Ok (Found (mkAll (Data (JNum (Z.of_nat (totalResponses s))))
                       (JArr items))))
    /\ List.length items = totalResponses s.
Proof.
  eexists.
  destruct (stats_agree_with_responses iso_day same_day_disk same_day_disk _
              ltac:(vm_compute; reflexivity)) as (items & Ha & Hl).
  exists items. split; [ vm_compute; reflexivity | ].
  split; [ exact Ha | exact Hl ].
Defined.

Lemma stats_fail_on_rejected_timestamp_witness :
  snd (submit env1 object_timestamp empty_disk)
  = Ok (SaveFailed "Failed to save survey response" TypeError)
  /\ jsonFile (fst (submit env1 object_timestamp empty_disk))
     = Some (Json.stringify (JArr (map JObj [enrich env1 object_timestamp])))
  /\ Json.parse (Json.stringify (JArr (map JObj [enrich env1 object_timestamp])))
     = Ok (JArr (map JObj [enrich env1 object_timestamp]))
  /\ forallb dated [enrich env1 object_timestamp] = false
  /\ getStats iso_day (fst (submit env1 object_timestamp empty_disk))
     = (fst (submit env1 object_timestamp empty_disk),
        Ok (NotFound "No responses found" TypeError)).
Proof.
  split; [ vm_compute; reflexivity | ].
  split; [ vm_compute; reflexivity | ].
  split; [ vm_compute; reflexivity | ].
  split; [ reflexivity | ].
  exact (proj1 (stats_fail_on_rejected_timestamp iso_day
                  (fst (submit env1 object_timestamp empty_disk)) _
                  [enrich env1 object_timestamp]
                  ltac:(vm_compute; reflexivity)
                  ltac:(vm_compute; reflexivity) eq_refl)).
Defined.

Lemma stats_after_submit_witness :
  Json.wf_record participant = true
  /\ exists d' s,
      submit env1 participant empty_disk
      = (d', Ok (Submitted (Data (new_id env1)) 1))
      /\ getStats iso_day d' = (d', Ok (Found s))
      /\ totalResponses s = 1
      /\ latestResponse s = get (enrich env1 participant) "timestamp".
Proof.
  split; [ reflexivity | ].
  eexists.
  destruct (stats_after_submit iso_day env1 empty_disk _ participant
              (Data (new_id env1)) 1 eq_refl ltac:(vm_compute; reflexivity))
    as (s & Hs & Ht & Hl & _).
  exists s. split; [ vm_compute; reflexivity | ].
  split; [ exact Hs | ]. split; [ exact Ht | exact Hl ].
Defined.

End QueryCoverage.
